(** * expr: a shallow embedding of [expr.h]

    The library parses a mathematical expression into a tree and offers
    symbolic differentiation, simplification and numeric evaluation.  This
    development embeds the registry ([Configuration]), the node family
    ([AstNode]) with [Differentiate], [Simplify] and [Evaluate], the
    [Tokenizer] and the recursive-descent [Parser], and states the
    properties of the specification over them.

    Conventions of the embedding:
    - a C++ [double] is a primitive binary64 float; [+ - * /], [sqrt],
      [fabs], [==] and [<] are the IEEE-754 operations of [PrimFloat];
    - the C library calls that are not part of the repository ([sin],
      [pow], [std::stod], ...) are the fields of a record [LibC] that
      [Evaluate] and the parser take as an argument;
    - the process-wide registry is passed explicitly as a [Configuration];
    - [std::unordered_map] is stdpp's [gmap];
    - a C++ [int] is a [Z] with the 32-bit wrap-around written out. *)

From Stdlib Require Import ZArith Bool List.
From Stdlib Require Import Strings.String Strings.Ascii.
From Stdlib Require Import Numbers.Cyclic.Int63.Uint63.
From Stdlib Require Import Floats.PrimFloat Floats.FloatOps Floats.SpecFloat.
From Stdlib Require Import Floats.FloatAxioms.
From stdpp Require Import gmap strings.

Local Open Scope string_scope.
Local Open Scope Z_scope.

(** ** Doubles and ints *)

Module Double.

(** [std::numbers::e] and [std::numbers::pi] as binary64 values. *)
Definition e : float := 0x1.5bf0a8b145769p+1%float.
Definition pi : float := 0x1.921fb54442d18p+1%float.

(** [std::numeric_limits<double>::signaling_NaN()]; primitive floats
    have a single NaN, so a signaling NaN and a quiet one are not told
    apart (the C library may: [pow] of a quiet NaN and 0 is 1). *)
Definition signaling_NaN : float := nan.

Definition INT_MIN : Z := - 2 ^ 31.
Definition INT_MAX : Z := 2 ^ 31 - 1.

(** Two's complement wrap-around of a 32-bit [int]. *)
Definition wrap_int (z : Z) : Z := (z + 2 ^ 31) mod 2 ^ 32 - 2 ^ 31.

Definition int_add (a b : Z) : Z := wrap_int (a + b).

(** The integer obtained by discarding the fractional part of a finite
    double; [None] for NaN and the infinities. *)
Definition truncate (x : float) : option Z :=
  match Prim2SF x with
  | S754_zero _ => Some 0
  | S754_finite s m e =>
      let mag := if (0 <=? e) then Z.pos m * 2 ^ e
                 else Z.pos m / 2 ^ (- e) in
      Some (if s then - mag else mag)
  | _ => None
  end.

(** [(int)x].  The conversion is undefined in C++ when the truncated
    value does not fit an [int]; the model then takes the value the
    x86-64 conversion instruction produces, [INT_MIN]. *)
Definition to_int (x : float) : Z :=
  match truncate x with
  | Some z => if (INT_MIN <=? z) && (z <=? INT_MAX) then z else INT_MIN
  | None => INT_MIN
  end.

(** [(double)n] for an [int] [n]: exact, every [int] is a double. *)
Definition of_int (n : Z) : float :=
  if n <? 0 then PrimFloat.opp (PrimFloat.of_uint63 (Uint63.of_Z (- n)))
  else PrimFloat.of_uint63 (Uint63.of_Z n).

End Double.

(** The functions of the C and C++ standard libraries the code calls. *)
Record LibC := {
  c_sin : float -> float;
  c_cos : float -> float;
  c_tan : float -> float;
  c_sinh : float -> float;
  c_cosh : float -> float;
  c_tanh : float -> float;
  c_log10 : float -> float;
  c_log : float -> float;
  c_exp : float -> float;
  c_pow : float -> float -> float;
  (** [std::stod]; [None] when it throws. *)
  c_stod : string -> option float
}.

(** ** The function classes *)

Inductive Function : Type :=
| SineFunction | CosineFunction | TangentFunction
| CotangentFunction | SecantFunction | CosecantFunction
| HyperbolicSineFunction | HyperbolicCosineFunction
| HyperbolicTangentFunction | HyperbolicCotangentFunction
| HyperbolicSecantFunction | HyperbolicCosecantFunction
| Base10LogarithmFunction | NaturalLogarithmFunction
| ExponentialFunction | SquareRootFunction | ModulusFunction.

Definition GetExpressionID (f : Function) : string :=
  match f with
  | SineFunction => "sin" | CosineFunction => "cos"
  | TangentFunction => "tan" | CotangentFunction => "cot"
  | SecantFunction => "sec" | CosecantFunction => "csc"
  | HyperbolicSineFunction => "sinh" | HyperbolicCosineFunction => "cosh"
  | HyperbolicTangentFunction => "tanh"
  | HyperbolicCotangentFunction => "coth"
  | HyperbolicSecantFunction => "sech"
  | HyperbolicCosecantFunction => "csch"
  | Base10LogarithmFunction => "log" | NaturalLogarithmFunction => "ln"
  | ExponentialFunction => "exp" | SquareRootFunction => "sqrt"
  | ModulusFunction => "abs"
  end.

(** [Exec(x)] of each class.  [sqrt] is the IEEE-754 square root.  The
    source calls [abs(x)] unqualified: which [abs] that is depends on the
    headers in scope.  It is modelled as the magnitude of the double (the
    overload of [<cmath>]); where only [int abs(int)] is visible the two
    agree on whole numbers in the range of [int], and the properties
    below use [abs] on such numbers only. *)
Definition Exec (lib : LibC) (f : Function) (x : float) : float :=
  match f with
  | SineFunction => c_sin lib x
  | CosineFunction => c_cos lib x
  | TangentFunction => c_tan lib x
  | CotangentFunction => (c_cos lib x / c_sin lib x)%float
  | SecantFunction => (1 / c_cos lib x)%float
  | CosecantFunction => (1 / c_sin lib x)%float
  | HyperbolicSineFunction => c_sinh lib x
  | HyperbolicCosineFunction => c_cosh lib x
  | HyperbolicTangentFunction => c_tanh lib x
  | HyperbolicCotangentFunction => (c_cosh lib x / c_sinh lib x)%float
  | HyperbolicSecantFunction => (1 / c_cosh lib x)%float
  | HyperbolicCosecantFunction => (1 / c_sinh lib x)%float
  | Base10LogarithmFunction => c_log10 lib x
  | NaturalLogarithmFunction => c_log lib x
  | ExponentialFunction => c_exp lib x
  | SquareRootFunction => PrimFloat.sqrt x
  | ModulusFunction => PrimFloat.abs x
  end.

(** ** The registry *)

Record Configuration := mkConfiguration {
  s_Functions : gmap string Function;
  s_Constants : gmap string float;
  s_Init : bool
}.

(** The registry of a process that has not called [Init] yet. *)
Definition Configuration_start : Configuration :=
  {| s_Functions := ∅; s_Constants := ∅; s_Init := false |}.

(** [AddFunction<T>(expressionID)]: the class [T] is the argument [T]. *)
Definition AddFunction (T : Function) (expressionID : string)
    (cfg : Configuration) : Configuration :=
  match s_Functions cfg !! expressionID with
  | None =>
      {| s_Functions := <[expressionID := T]> (s_Functions cfg);
         s_Constants := s_Constants cfg;
         s_Init := s_Init cfg |}
  | Some _ => cfg
  end.

Definition AddConstant (name : string) (value : float)
    (cfg : Configuration) : Configuration :=
  {| s_Functions := s_Functions cfg;
     s_Constants := <[name := value]> (s_Constants cfg);
     s_Init := s_Init cfg |}.

Definition set_Init (b : bool) (cfg : Configuration) : Configuration :=
  {| s_Functions := s_Functions cfg;
     s_Constants := s_Constants cfg;
     s_Init := b |}.

Definition Init (cfg : Configuration) : Configuration :=
  if s_Init cfg then cfg
  else
    let cfg := AddFunction SineFunction "sin" cfg in
    let cfg := AddFunction CosineFunction "cos" cfg in
    let cfg := AddFunction TangentFunction "tan" cfg in
    let cfg := AddFunction CotangentFunction "cot" cfg in
    let cfg := AddFunction SecantFunction "sec" cfg in
    let cfg := AddFunction CosecantFunction "csc" cfg in
    let cfg := AddFunction HyperbolicSineFunction "sinh" cfg in
    let cfg := AddFunction HyperbolicCosineFunction "cosh" cfg in
    let cfg := AddFunction HyperbolicTangentFunction "tanh" cfg in
    let cfg := AddFunction HyperbolicCotangentFunction "coth" cfg in
    let cfg := AddFunction HyperbolicSecantFunction "sech" cfg in
    let cfg := AddFunction HyperbolicCosecantFunction "csch" cfg in
    let cfg := AddFunction Base10LogarithmFunction "log" cfg in
    let cfg := AddFunction NaturalLogarithmFunction "ln" cfg in
    let cfg := AddFunction SquareRootFunction "sqrt" cfg in
    let cfg := AddFunction ModulusFunction "abs" cfg in
    let cfg := AddConstant "e" Double.e cfg in
    let cfg := AddConstant "pi" Double.pi cfg in
    set_Init true cfg.

Definition Shutdown (cfg : Configuration) : Configuration :=
  {| s_Functions := ∅; s_Constants := s_Constants cfg; s_Init := false |}.

(** [GetFunction]: [None] is the null pointer. *)
Definition GetFunction (cfg : Configuration) (name : string)
    : option Function :=
  s_Functions cfg !! name.

Definition GetConstantValue (cfg : Configuration) (name : string) : float :=
  match s_Constants cfg !! name with
  | Some v => v
  | None => Double.signaling_NaN
  end.

(** The registry after [Init] in a fresh process. *)
Definition Configuration_std : Configuration := Init Configuration_start.

(** ** Nodes *)

(** The node classes.  A C++ [FunctionNode] holds a function pointer and
    an argument; its constructor leaves the pointer null exactly when the
    lookup fails, and then replaces the argument by an [ErrorNode].  The
    two outcomes of the constructor are the constructors [FunctionNode]
    (pointer to an instance of the class [m_Function]) and
    [FunctionNode_null] (null pointer, [m_Argument] is
    [ErrorNode m_Message]). *)
Inductive AstNode : Type :=
| ErrorNode (m_Message : string)
| NumberNode (m_Value : float)
| VariableNode (m_Name : string)
| ConstantNode (m_Value : float) (m_Name : string)
| OperatorNode (m_Operator : string) (m_Left m_Right : AstNode)
| EqualsNode (m_Left m_Right : AstNode)
| DifferentialNode (m_Variable m_RespectTo : string) (m_Order : Z)
| FunctionNode (m_Function : Function) (m_Argument : AstNode)
| FunctionNode_null (m_Message : string).

(** [sameType(node, ErrorNode)] *)
Definition is_ErrorNode (node : AstNode) : bool :=
  match node with ErrorNode _ => true | _ => false end.

(** The constructor [FunctionNode(funcID, argument)]. *)
Definition new_FunctionNode (cfg : Configuration) (funcID : string)
    (argument : AstNode) : AstNode :=
  match GetFunction cfg funcID with
  | Some f => FunctionNode f argument
  | None => FunctionNode_null ("Could not find function " +:+ funcID)
  end.

(** The constructor [ConstantNode(constantName)]. *)
Definition new_ConstantNode (cfg : Configuration) (constantName : string)
    : AstNode :=
  ConstantNode (GetConstantValue cfg constantName) constantName.

(** [sameType(node, NumberNode)] followed by [GetValue()]. *)
Definition as_NumberNode (node : AstNode) : option float :=
  match node with NumberNode v => Some v | _ => None end.

(** Early returns: a block of the source that may return is an
    [option AstNode]; [blk <||> blk'] runs [blk'] when [blk] did not
    return, and [blk <|> rest] ends with the code after the blocks. *)
Definition or_try (blk blk' : option AstNode) : option AstNode :=
  match blk with Some r => Some r | None => blk' end.

Definition or_else (blk : option AstNode) (rest : AstNode) : AstNode :=
  match blk with Some r => r | None => rest end.

Notation "blk <||> rest" := (or_try blk rest)
  (at level 99, right associativity, only parsing).

Notation "blk <|> rest" := (or_else blk rest)
  (at level 100, rest at level 200, right associativity, only parsing).

Section Symbolic.

(** The registry the node constructors read. *)
Variable cfg : Configuration.

Local Abbreviation Op := OperatorNode.
Local Abbreviation Fn := (new_FunctionNode cfg).
Local Abbreviation Num := NumberNode.
Local Abbreviation Const := (new_ConstantNode cfg).

(** *** Differentiation *)

(** [T::Differentiate(respectTo, argument)] of the function classes;
    [D] is [node->Differentiate(respectTo)]. *)
Definition Function_Differentiate (D : AstNode -> AstNode) (f : Function)
    (argument : AstNode) : AstNode :=
  match f with
  | SineFunction => Op "*" (D argument) (Fn "cos" argument)
  | CosineFunction =>
      Op "*" (Num (-1)) (Op "*" (D argument) (Fn "sin" argument))
  | TangentFunction =>
      Op "*" (D argument) (Op "^" (Fn "sec" argument) (Num 2))
  | CotangentFunction =>
      Op "*" (Num (-1))
        (Op "*" (D argument) (Op "^" (Fn "csc" argument) (Num 2)))
  | SecantFunction =>
      Op "*" (D argument) (Op "*" (Fn "tan" argument) (Fn "sec" argument))
  | CosecantFunction =>
      Op "*" (Num (-1))
        (Op "*" (D argument)
           (Op "*" (Fn "cot" argument) (Fn "csc" argument)))
  | HyperbolicSineFunction => Op "*" (D argument) (Fn "cosh" argument)
  | HyperbolicCosineFunction => Op "*" (D argument) (Fn "sinh" argument)
  | HyperbolicTangentFunction =>
      Op "*" (D argument) (Op "^" (Fn "sech" argument) (Num 2))
  | HyperbolicCotangentFunction =>
      Op "*" (Num (-1))
        (Op "*" (D argument) (Op "^" (Fn "csch" argument) (Num 2)))
  | HyperbolicSecantFunction =>
      Op "*" (Num (-1))
        (Op "*" (D argument)
           (Op "*" (Fn "tanh" argument) (Fn "sech" argument)))
  | HyperbolicCosecantFunction =>
      Op "*" (Num (-1))
        (Op "*" (D argument)
           (Op "*" (Fn "coth" argument) (Fn "csch" argument)))
  | Base10LogarithmFunction =>
      Op "/" (D argument) (Op "*" (Fn "ln" (Num 10)) argument)
  | NaturalLogarithmFunction => Op "/" (D argument) argument
  | ExponentialFunction => Op "*" (D argument) (Fn "exp" argument)
  | SquareRootFunction =>
      Op "/" (D argument) (Op "*" (Num 2) (Fn "sqrt" argument))
  | ModulusFunction =>
      Op "/" (Op "*" argument (D argument)) (Fn "abs" argument)
  end.

(** [OperatorNode::Differentiate]; [D] is
    [node->Differentiate(respectTo)]. *)
Definition OperatorNode_Differentiate (D : AstNode -> AstNode)
    (m_Operator : string) (m_Left m_Right : AstNode) : AstNode :=
  let diffLeft := D m_Left in
  let diffRight := D m_Right in
  if is_ErrorNode diffLeft then diffLeft
  else if is_ErrorNode diffRight then diffRight
  else if (m_Operator =? "+")%string then Op "+" (D m_Left) (D m_Right)
  else if (m_Operator =? "-")%string then Op "-" (D m_Left) (D m_Right)
  else if (m_Operator =? "*")%string then
    Op "+" (Op "*" (D m_Left) m_Right) (Op "*" m_Left (D m_Right))
  else if (m_Operator =? "/")%string then
    match m_Left with
    | NumberNode numerator =>
        Op "*" (Num (-1))
          (Op "*" (Num numerator)
             (Op "/" (D m_Right) (Op "^" m_Right (Num 2))))
    | ConstantNode _ numerator =>
        Op "*" (Num (-1))
          (Op "*" (Const numerator)
             (Op "/" (D m_Right) (Op "^" m_Right (Num 2))))
    | _ =>
        match m_Right with
        | NumberNode denominator => Op "/" (D m_Left) (Num denominator)
        | ConstantNode _ denominator =>
            Op "/" (D m_Left) (Const denominator)
        | _ =>
            Op "/"
              (Op "-" (Op "*" m_Right (D m_Left))
                      (Op "*" m_Left (D m_Right)))
              (Op "^" m_Right (Num 2))
        end
    end
  else if (m_Operator =? "^")%string then
    (match m_Left, m_Right with
     | VariableNode varNode, NumberNode numberNode =>
         if (numberNode =? 1)%float then Some (Num 1)
         else if (numberNode =? 0)%float then Some (Num 0)
         else Some (Op "*" (Num numberNode)
                      (Op "^" (VariableNode varNode)
                         (Num (numberNode - 1)%float)))
     | VariableNode varNode, ConstantNode _ constantNode =>
         Some (Op "*" (Const constantNode)
                 (Op "^" (VariableNode varNode)
                    (Op "-" (Const constantNode) (Num 1))))
     | _, _ => None
     end) <||>
    (match m_Left with
     | NumberNode numberNode =>
         Some (Op "*" (Fn "ln" (Num numberNode))
                 (Op "*" (Op "^" m_Left m_Right) (D m_Right)))
     | ConstantNode _ constant =>
         Some (Op "*" (Fn "ln" (Const constant))
                 (Op "*" (Op "^" m_Left m_Right) (D m_Right)))
     | _ => None
     end) <|>
    let baseDerivative := D m_Left in
    let exponentDerivative := D m_Right in
    let baseFraction := Op "/" baseDerivative m_Left in
    let lnBase := Fn "ln" m_Left in
    let firstTerm := Op "*" m_Right baseFraction in
    let secondTerm := Op "*" lnBase exponentDerivative in
    let result := Op "+" firstTerm secondTerm in
    Op "*" (Op m_Operator m_Left m_Right) result
  else ErrorNode ("Unknown operator " +:+ m_Operator).

Fixpoint Differentiate (respectTo : string) (node : AstNode) : AstNode :=
  match node with
  | ErrorNode m_Message => ErrorNode m_Message
  | NumberNode _ => Num 0
  | VariableNode m_Name =>
      if (m_Name =? respectTo)%string then Num 1
      else DifferentialNode m_Name respectTo 1
  | ConstantNode _ _ => Num 0
  | OperatorNode m_Operator m_Left m_Right =>
      OperatorNode_Differentiate (Differentiate respectTo)
        m_Operator m_Left m_Right
  | EqualsNode m_Left m_Right =>
      let diffLeft := Differentiate respectTo m_Left in
      let diffRight := Differentiate respectTo m_Right in
      if is_ErrorNode diffLeft then diffLeft
      else if is_ErrorNode diffRight then diffRight
      else EqualsNode diffLeft diffRight
  | DifferentialNode m_Variable m_RespectTo m_Order =>
      if (respectTo =? m_RespectTo)%string then
        DifferentialNode m_Variable m_RespectTo (Double.int_add m_Order 1)
      else
        Op "*"
          (DifferentialNode m_Variable m_RespectTo
             (Double.int_add m_Order 1))
          (DifferentialNode m_RespectTo respectTo 1)
  | FunctionNode m_Function m_Argument =>
      if is_ErrorNode m_Argument then m_Argument
      else Function_Differentiate (Differentiate respectTo)
             m_Function m_Argument
  | FunctionNode_null m_Message => ErrorNode m_Message
  end.

(** *** Simplification *)

(** [T::Simplify(argument)] of the function classes; [S] is
    [node->Simplify()]. *)
Definition Function_Simplify (S : AstNode -> AstNode) (f : Function)
    (argument : AstNode) : AstNode :=
  let simplifiedArgument := S argument in
  let number := as_NumberNode simplifiedArgument in
  let keep := Fn (GetExpressionID f) simplifiedArgument in
  match f with
  | SineFunction | TangentFunction
  | HyperbolicSineFunction | HyperbolicTangentFunction =>
      (match number with
       | Some v => if (v =? 0)%float then Some (Num 0) else None
       | None => None
       end) <|> keep
  | CosineFunction | SecantFunction
  | HyperbolicCosineFunction | HyperbolicSecantFunction =>
      (match number with
       | Some v => if (v =? 0)%float then Some (Num 1) else None
       | None => None
       end) <|> keep
  | CotangentFunction | CosecantFunction
  | HyperbolicCotangentFunction | HyperbolicCosecantFunction => keep
  | Base10LogarithmFunction =>
      (match number with
       | Some v =>
           if (v =? 1)%float then Some (Num 0)
           else if (v =? 10)%float then Some (Num 1)
           else None
       | None => None
       end) <|> keep
  | NaturalLogarithmFunction =>
      (match number with
       | Some v =>
           if (v =? 1)%float then Some (Num 0)
           else if (v =? Double.e)%float then Some (Num 1)
           else None
       | None => None
       end) <||>
      (match simplifiedArgument with
       | ConstantNode _ name =>
           if (name =? "e")%string then Some (Num 1) else None
       | _ => None
       end) <|> keep
  | ExponentialFunction =>
      (match number with
       | Some v =>
           if (v =? 1)%float then Some (Const "e")
           else if (v =? 0)%float then Some (Num 1)
           else None
       | None => None
       end) <|> keep
  | SquareRootFunction =>
      (match number with
       | Some v =>
           let result := PrimFloat.sqrt v in
           if (Double.of_int (Double.to_int result) =? result)%float
           then Some (Num result)
           else None
       | None => None
       end) <|> keep
  | ModulusFunction =>
      (match number with
       | Some v =>
           if (v <? 0)%float then Some (Num (- v)%float)
           else Some (Num v)
       | None => None
       end) <|> keep
  end.

(** [op == "+" || op == "-"] *)
Definition is_plus_or_minus (op : string) : bool :=
  (op =? "+")%string || (op =? "-")%string.

(** The expansion of [(a op1 b) * (c op2 d)] in
    [OperatorNode::Simplify]. *)
Definition expand_product (leftOperator rightOperator : string)
    (a b c d : AstNode) : option AstNode :=
  if (leftOperator =? "+")%string && (rightOperator =? "+")%string then
    Some (Op "+" (Op "+" (Op "*" a c) (Op "*" a d))
                 (Op "+" (Op "*" b c) (Op "*" b d)))
  else if (leftOperator =? "+")%string && (rightOperator =? "-")%string
  then
    Some (Op "+" (Op "-" (Op "*" a c) (Op "*" a d))
                 (Op "-" (Op "*" b c) (Op "*" b d)))
  else if (leftOperator =? "-")%string && (rightOperator =? "+")%string
  then
    Some (Op "+" (Op "-" (Op "*" a c) (Op "*" b c))
                 (Op "-" (Op "*" a d) (Op "*" b d)))
  else if (leftOperator =? "-")%string && (rightOperator =? "-")%string
  then
    Some (Op "+" (Op "-" (Op "*" a c) (Op "*" a d))
                 (Op "-" (Op "*" b d) (Op "*" b c)))
  else None.

(** [k * (l op r)] becomes [(k * l) op (k * r)]. *)
Definition distribute (op : string) (k l r : AstNode) : AstNode :=
  Op op (Op "*" k l) (Op "*" k r).

(** The rules of [OperatorNode::Simplify] after both children have been
    simplified and found not to be errors. *)
Definition OperatorNode_Simplify_rules (m_Operator : string)
    (simplifiedLeft simplifiedRight : AstNode) : AstNode :=
  let leftNum := as_NumberNode simplifiedLeft in
  let rightNum := as_NumberNode simplifiedRight in
  (if (m_Operator =? "+")%string then
     (match leftNum with
      | Some l =>
          if (l =? 0)%float then Some simplifiedRight
          else match rightNum with
               | Some r => Some (Num (l + r)%float)
               | None => None
               end
      | None => None
      end) <||>
     (match rightNum with
      | Some r => if (r =? 0)%float then Some simplifiedLeft else None
      | None => None
      end)
   else if (m_Operator =? "-")%string then
     (match leftNum with
      | Some l =>
          if (l =? 0)%float then
            Some (Op "*" (Num (-1)) simplifiedRight)
          else match rightNum with
               | Some r => Some (Num (l - r)%float)
               | None => None
               end
      | None => None
      end) <||>
     (match rightNum with
      | Some r => if (r =? 0)%float then Some simplifiedLeft else None
      | None => None
      end)
   else if (m_Operator =? "*")%string then
     (match leftNum with
      | Some l =>
          if (l =? 1)%float then Some simplifiedRight
          else if (l =? 0)%float then Some simplifiedLeft
          else None
      | None => None
      end) <||>
     (match rightNum with
      | Some r =>
          if (r =? 1)%float then Some simplifiedLeft
          else if (r =? 0)%float then Some simplifiedRight
          else None
      | None => None
      end) <||>
     (match simplifiedLeft, simplifiedRight with
      | ConstantNode _ lhs, ConstantNode _ rhs =>
          if (lhs =? rhs)%string then Some (Op "^" simplifiedLeft (Num 2))
          else None
      | _, _ => None
      end) <||>
     (match simplifiedLeft, simplifiedRight with
      | VariableNode lhs, VariableNode rhs =>
          if (lhs =? rhs)%string then Some (Op "^" simplifiedLeft (Num 2))
          else None
      | _, _ => None
      end) <||>
     (match simplifiedRight with
      | OperatorNode rightOp rl rr =>
          if is_plus_or_minus rightOp then
            (match simplifiedLeft with
             | OperatorNode leftOp ll lr =>
                 if is_plus_or_minus leftOp then
                   expand_product leftOp rightOp ll lr rl rr
                 else None
             | _ => None
             end) <||>
            match simplifiedLeft with
            | NumberNode _ | ConstantNode _ _
            | FunctionNode _ _ | FunctionNode_null _ =>
                Some (distribute rightOp simplifiedLeft rl rr)
            | _ => None
            end
          else None
      | _ => None
      end) <||>
     (match simplifiedLeft with
      | OperatorNode leftOp ll lr =>
          if is_plus_or_minus leftOp then
            match simplifiedRight with
            | NumberNode _ | ConstantNode _ _
            | FunctionNode _ _ | FunctionNode_null _ =>
                Some (distribute leftOp simplifiedRight ll lr)
            | _ => None
            end
          else None
      | _ => None
      end)
   else if (m_Operator =? "/")%string then
     (match rightNum with
      | Some r => if (r =? 1)%float then Some simplifiedLeft else None
      | None => None
      end) <||>
     (match leftNum with
      | Some l => if (l =? 0)%float then Some simplifiedLeft else None
      | None => None
      end)
   else if (m_Operator =? "^")%string then
     (match leftNum with
      | Some l =>
          (if (l =? 0)%float then
             match rightNum with
             | None => Some (Num 0)
             | Some r =>
                 if negb (r =? 0)%float then Some (Num 0) else None
             end
           else None) <||>
          (if (l =? 1)%float then Some (Num 1) else None)
      | None => None
      end) <||>
     (match rightNum with
      | Some r =>
          if (r =? 1)%float then Some simplifiedLeft
          else if (r =? 0)%float then Some (Num 1)
          else None
      | None => None
      end)
   else None) <|>
  Op m_Operator simplifiedLeft simplifiedRight.

Fixpoint Simplify (node : AstNode) : AstNode :=
  match node with
  | ErrorNode m_Message => ErrorNode m_Message
  | NumberNode m_Value => Num m_Value
  | VariableNode m_Name => VariableNode m_Name
  | ConstantNode _ m_Name => Const m_Name
  | OperatorNode m_Operator m_Left m_Right =>
      let simplifiedLeft := Simplify m_Left in
      let simplifiedRight := Simplify m_Right in
      if is_ErrorNode simplifiedLeft then simplifiedLeft
      else if is_ErrorNode simplifiedRight then simplifiedRight
      else OperatorNode_Simplify_rules m_Operator
             simplifiedLeft simplifiedRight
  | EqualsNode m_Left m_Right =>
      let simplifiedLeft := Simplify m_Left in
      let simplifiedRight := Simplify m_Right in
      if is_ErrorNode simplifiedLeft then simplifiedLeft
      else if is_ErrorNode simplifiedRight then simplifiedRight
      else EqualsNode simplifiedLeft simplifiedRight
  | DifferentialNode m_Variable m_RespectTo m_Order =>
      DifferentialNode m_Variable m_RespectTo m_Order
  | FunctionNode m_Function m_Argument =>
      if is_ErrorNode m_Argument then m_Argument
      else Function_Simplify Simplify m_Function m_Argument
  | FunctionNode_null m_Message => ErrorNode m_Message
  end.

End Symbolic.

(** *** Evaluation *)

(** [Evaluate(variableValues)].  The result is [None] when the call
    dereferences the null function pointer of a [FunctionNode] whose
    function was not found. *)
Fixpoint Evaluate (lib : LibC) (variableValues : gmap string float)
    (node : AstNode) : option float :=
  match node with
  | ErrorNode _ => Some Double.signaling_NaN
  | NumberNode m_Value => Some m_Value
  | VariableNode m_Name =>
      match variableValues !! m_Name with
      | Some v => Some v
      | None => Some Double.signaling_NaN
      end
  | ConstantNode m_Value _ => Some m_Value
  | OperatorNode m_Operator m_Left m_Right =>
      match Evaluate lib variableValues m_Left with
      | None => None
      | Some leftVal =>
          match Evaluate lib variableValues m_Right with
          | None => None
          | Some rightVal =>
              Some (if (m_Operator =? "+")%string then leftVal + rightVal
                    else if (m_Operator =? "-")%string
                    then leftVal - rightVal
                    else if (m_Operator =? "*")%string
                    then leftVal * rightVal
                    else if (m_Operator =? "/")%string
                    then leftVal / rightVal
                    else if (m_Operator =? "^")%string
                    then c_pow lib leftVal rightVal
                    else Double.signaling_NaN)%float
          end
      end
  | EqualsNode _ _ => Some Double.signaling_NaN
  | DifferentialNode _ _ _ => Some Double.signaling_NaN
  | FunctionNode m_Function m_Argument =>
      match Evaluate lib variableValues m_Argument with
      | None => None
      | Some argumentVal => Some (Exec lib m_Function argumentVal)
      end
  | FunctionNode_null _ => None
  end.

(** ** Tokens *)

(** [Variable] is a keyword of Rocq: the token type is [Variable_]. *)
Module TokenType.
Inductive t : Type :=
| Number | Operator | Variable_ | Constant | Function
| Parenthesis | ModulusDelimiter | Equals | Unknown.

(** [(uint32_t)type] *)
Definition to_uint32 (ty : t) : Z :=
  match ty with
  | Number => 0 | Operator => 1 | Variable_ => 2 | Constant => 3
  | Function => 4 | Parenthesis => 5 | ModulusDelimiter => 6
  | Equals => 7 | Unknown => 8
  end.

Definition eqb (a b : t) : bool := to_uint32 a =? to_uint32 b.

(** [std::to_string((uint32_t)type)] *)
Definition to_string (ty : t) : string :=
  match ty with
  | Number => "0" | Operator => "1" | Variable_ => "2" | Constant => "3"
  | Function => "4" | Parenthesis => "5" | ModulusDelimiter => "6"
  | Equals => "7" | Unknown => "8"
  end.
End TokenType.

Record Token := mkToken { Type_ : TokenType.t; Value : string }.

(** ** The regular expressions of the tokenizer

    [std::regex] (ECMAScript grammar) on the patterns of [Tokenize]: an
    alternation takes its first alternative that matches, quantifiers are
    greedy.  The names of the registry are spliced into the pattern text
    by the source; the model reads them as literal words, which they are
    when they consist of letters (as every name [Init] registers). *)

Module Regex.

Definition in_range (lo hi c : ascii) : bool :=
  (nat_of_ascii lo <=? nat_of_ascii c)%nat
  && (nat_of_ascii c <=? nat_of_ascii hi)%nat.

(** [\d] *)
Definition is_digit (c : ascii) : bool := in_range "0" "9" c.

(** [[a-zA-Z]] *)
Definition is_letter (c : ascii) : bool :=
  in_range "a" "z" c || in_range "A" "Z" c.

(** The word characters of [\b]. *)
Definition is_word (c : ascii) : bool :=
  is_letter c || is_digit c || Ascii.eqb c "_".

Definition is_word_at (c : option ascii) : bool :=
  match c with Some c => is_word c | None => false end.

(** [\b] between the character [before] and the character [after]
    ([None] at either end of the input). *)
Definition word_boundary (before after : option ascii) : bool :=
  xorb (is_word_at before) (is_word_at after).

(** The longest prefix of characters satisfying [p], and the rest. *)
Fixpoint span (p : ascii -> bool) (s : list ascii)
    : list ascii * list ascii :=
  match s with
  | c :: t =>
      if p c then let (a, b) := span p t in (c :: a, b) else ([], s)
  | [] => ([], [])
  end.

Fixpoint strip_prefix (n s : list ascii) : option (list ascii) :=
  match n, s with
  | [], _ => Some s
  | a :: n', b :: s' => if Ascii.eqb a b then strip_prefix n' s' else None
  | _ :: _, [] => None
  end.

(** One alternative [name] of [\b(n1|n2|...)\b] at a position preceded
    by [prev].  The source splices the names into the text of the
    pattern; the model compares them as literal text, which is what the
    pattern does for a name made of letters, digits and [_]
    ([literal_names] below). *)
Definition match_name (prev : option ascii) (s : list ascii)
    (name : string) : bool :=
  let n := list_ascii_of_string name in
  match strip_prefix n s with
  | Some rest =>
      word_boundary prev (head s)
      && word_boundary (last (option_list prev ++ n)%list) (head rest)
  | None => false
  end.

(** [\b(n1|n2|...)\b]: the first name that matches here. *)
Definition match_names (names : list string) (prev : option ascii)
    (s : list ascii) : option (list ascii) :=
  list_ascii_of_string <$> List.find (match_name prev s) names.

(** [-?\d+(\.\d+)?] *)
Definition match_number (s : list ascii) : option (list ascii) :=
  let (sign, s1) :=
    match s with
    | c :: t => if Ascii.eqb c "-" then ([c], t) else ([], s)
    | [] => ([], s)
    end in
  let (digits, s2) := span is_digit s1 in
  match digits with
  | [] => None
  | _ :: _ =>
      match s2 with
      | c :: t =>
          if Ascii.eqb c "." then
            let (fraction, _) := span is_digit t in
            match fraction with
            | [] => Some (sign ++ digits)%list
            | _ :: _ => Some (sign ++ digits ++ c :: fraction)%list
            end
          else Some (sign ++ digits)%list
      | [] => Some (sign ++ digits)%list
      end
  end.

Definition one_of (chars : string) (s : list ascii)
    : option (list ascii) :=
  match s with
  | c :: _ =>
      if existsb (Ascii.eqb c) (list_ascii_of_string chars)
      then Some [c] else None
  | [] => None
  end.

(** [[\+\-\*/\^=]] *)
Definition match_operator := one_of "+-*/^=".

(** [[a-zA-Z]+] *)
Definition match_variable (s : list ascii) : option (list ascii) :=
  match fst (span is_letter s) with
  | [] => None
  | m => Some m
  end.

(** [[()]] *)
Definition match_parenthesis := one_of "()".

(** [\|] *)
Definition match_modulusDelimiter := one_of "|".

Definition alt (a b : option (list ascii)) : option (list ascii) :=
  match a with Some m => Some m | None => b end.

(** [tokenPattern] at one position: the alternatives in their order. *)
Definition match_token (functions constants : list string)
    (prev : option ascii) (s : list ascii) : option (list ascii) :=
  alt (match_names functions prev s)
 (alt (match_names constants prev s)
 (alt (match_number s)
 (alt (match_operator s)
 (alt (match_variable s)
 (alt (match_parenthesis s)
      (match_modulusDelimiter s)))))).

(** The matches [std::sregex_iterator] enumerates: the leftmost match,
    then the leftmost match after it, and so on.  [skip] counts the
    characters of the current match still to pass over.  Every
    alternative of the pattern matches at least one character unless a
    registered name is empty; the model is for registries without such
    a name ([literal_names] below). *)
Fixpoint iterate (functions constants : list string) (skip : nat)
    (prev : option ascii) (s : list ascii) : list string :=
  match s with
  | [] => []
  | c :: t =>
      match skip with
      | S k => iterate functions constants k (Some c) t
      | O =>
          match match_token functions constants prev s with
          | Some m =>
              string_of_list_ascii m
              :: iterate functions constants (length m - 1) (Some c) t
          | None => iterate functions constants 0 (Some c) t
          end
      end
  end.

(** [std::regex_match(value, pattern)]: the whole of [value] matches. *)
Definition full (m : option (list ascii)) (value : string) : bool :=
  match m with
  | Some m => String.eqb (string_of_list_ascii m) value
  | None => false
  end.

Definition full_names (names : list string) (value : string) : bool :=
  existsb (fun name => String.eqb name value
                       && match_name None (list_ascii_of_string value) name)
          names.

End Regex.

(** ** The tokenizer *)

Module Tokenizer.

(** The names [GetFunctionIDs] and [GetConstantNames] join with [|], in
    the iteration order of the map.  On an empty map the source calls
    [pop_back] on an empty string and [Tokenize] does not return; the
    model is for a registry with a function and a constant
    ([literal_names] below), as [Init] leaves it. *)
Definition GetFunctionIDs (cfg : Configuration) : list string :=
  fst <$> map_to_list (s_Functions cfg).

Definition GetConstantNames (cfg : Configuration) : list string :=
  fst <$> map_to_list (s_Constants cfg).

Definition IsNegativeSign (index : Z) (tokens : list Token)
    (insideModulus : bool) : bool :=
  if index =? 0 then true
  else
    match last tokens with
    | Some previousToken =>
        TokenType.eqb (Type_ previousToken) TokenType.Operator
        || (TokenType.eqb (Type_ previousToken) TokenType.Parenthesis
            && String.eqb (Value previousToken) "(")
        || (TokenType.eqb (Type_ previousToken) TokenType.ModulusDelimiter
            && insideModulus)
    | None => false
    end.

(** The [if / else if] chain that types a match; the second component
    is the new value of [insideModulus].  The last two tests of the
    chain are both on [parenthesisPattern], as in the source. *)
Definition classify (cfg : Configuration) (value : string)
    (insideModulus : bool) : TokenType.t * bool :=
  let v := list_ascii_of_string value in
  if Regex.full_names (GetFunctionIDs cfg) value
  then (TokenType.Function, insideModulus)
  else if Regex.full_names (GetConstantNames cfg) value
  then (TokenType.Constant, insideModulus)
  else if Regex.full (Regex.match_number v) value
  then (TokenType.Number, insideModulus)
  else if Regex.full (Regex.match_operator v) value
  then (if String.eqb value "=" then TokenType.Equals
        else TokenType.Operator, insideModulus)
  else if Regex.full (Regex.match_variable v) value
  then (TokenType.Variable_, insideModulus)
  else if Regex.full (Regex.match_parenthesis v) value
  then (TokenType.Parenthesis, insideModulus)
  else if Regex.full (Regex.match_parenthesis v) value
  then (TokenType.ModulusDelimiter, negb insideModulus)
  else (TokenType.Unknown, insideModulus).

(** The [while (it != end)] loop; [matches] is what the iterator [it]
    still has to yield, [tokens] grows at its end.  When a sign is the
    last match the source increments the iterator past its end; the
    model stops there. *)
Fixpoint loop (cfg : Configuration) (i : Z) (insideModulus : bool)
    (matches : list string) (tokens : list Token) : list Token :=
  match matches with
  | [] => tokens
  | value :: rest =>
      let (type, insideModulus) := classify cfg value insideModulus in
      if TokenType.eqb type TokenType.Operator
         && String.eqb value "-"
         && IsNegativeSign i tokens insideModulus
      then
        match rest with
        | nextValue :: rest' =>
            loop cfg (i + 1) insideModulus rest'
              (tokens ++ [mkToken TokenType.Number (value +:+ nextValue)])
        | [] => tokens
        end
      else
        loop cfg (i + 1) insideModulus rest
          (tokens ++ [mkToken type value])
  end.

Definition Tokenize (cfg : Configuration) (input : string) : list Token :=
  let matches :=
    Regex.iterate (GetFunctionIDs cfg) (GetConstantNames cfg)
      0 None (list_ascii_of_string input) in
  loop cfg 0 false matches [].

End Tokenizer.

(** ** The parser *)

(** What a call of the parser ends with: a value, an exception, or, in
    the model only, the exhaustion of the recursion budget. *)
Inductive outcome (A : Type) : Type :=
| Done (a : A)
| Throws (what : string)
| OutOfFuel.

Arguments Done {A} a.
Arguments Throws {A} what.
Arguments OutOfFuel {A}.

Module Parser.

(** A parser method maps the tokens from [m_Position] on to its node
    and the tokens that remain. *)
Definition method : Type := list Token -> outcome (AstNode * list Token).

Section Methods.

Variable lib : LibC.
Variable cfg : Configuration.

(** The [while (true)] loop shared by the four binary levels:
    [accepts] is the test on [token->Value], [operand] the method
    called for the right operand, [build] the node made of the operands.
    Each turn consumes a token; [turns] bounds their number. *)
Fixpoint loop (accepts : string -> bool) (operand : method)
    (build : string -> AstNode -> AstNode -> AstNode)
    (turns : nat) (leftNode : AstNode) (tokens : list Token)
    : outcome (AstNode * list Token) :=
  match tokens with
  | [] => Done (leftNode, tokens)
  | token :: tokens' =>
      if negb (accepts (Value token)) then Done (leftNode, tokens)
      else
        match turns with
        | O => OutOfFuel
        | S turns' =>
            match operand tokens' with
            | Done (rightNode, tokens'') =>
                if is_ErrorNode rightNode then Done (rightNode, tokens'')
                else loop accepts operand build turns'
                       (build (Value token) leftNode rightNode) tokens''
            | Throws what => Throws what
            | OutOfFuel => OutOfFuel
            end
        end
  end.

(** The common shape of the four levels: parse the first operand,
    return it if it is an error, else enter the loop. *)
Definition level (accepts : string -> bool) (operand : method)
    (build : string -> AstNode -> AstNode -> AstNode)
    (turns : nat) : method :=
  fun tokens =>
    match operand tokens with
    | Done (leftNode, tokens') =>
        if is_ErrorNode leftNode then Done (leftNode, tokens')
        else loop accepts operand build turns leftNode tokens'
    | Throws what => Throws what
    | OutOfFuel => OutOfFuel
    end.

(** [Peek()] is null or [Peek()->Value != text]. *)
Definition not_next (text : string) (tokens : list Token) : bool :=
  match tokens with
  | [] => true
  | token :: _ => negb (String.eqb (Value token) text)
  end.

(** [ParsePrimary]; [ParseExpression] is the method it calls for a
    nested expression. *)
Definition ParsePrimary (ParseExpression : method) : method :=
  fun tokens =>
    match tokens with
    | [] => Done (ErrorNode "Unexpected end of tokens", tokens)
    | token :: tokens1 =>
        match Type_ token with
        | TokenType.Number =>
            match c_stod lib (Value token) with
            | Some v => Done (NumberNode v, tokens1)
            | None => Throws "std::stod"
            end
        | TokenType.Constant =>
            Done (new_ConstantNode cfg (Value token), tokens1)
        | TokenType.Variable_ =>
            Done (VariableNode (Value token), tokens1)
        | TokenType.Function =>
            if not_next "(" tokens1
            then Done (ErrorNode "expected '(' after function", tokens1)
            else
              match ParseExpression (tail tokens1) with
              | Done (argument, tokens2) =>
                  if not_next ")" tokens2
                  then Done (ErrorNode
                               "expected ')' after function argument",
                             tokens2)
                  else Done (new_FunctionNode cfg (Value token) argument,
                             tail tokens2)
              | Throws what => Throws what
              | OutOfFuel => OutOfFuel
              end
        | TokenType.ModulusDelimiter =>
            match ParseExpression tokens1 with
            | Done (argument, tokens2) =>
                if not_next "|" tokens2
                then Done (ErrorNode
                             "expected '|' to close modulus expression",
                           tokens2)
                else Done (new_FunctionNode cfg "abs" argument,
                           tail tokens2)
            | Throws what => Throws what
            | OutOfFuel => OutOfFuel
            end
        | ty =>
            if TokenType.eqb ty TokenType.Parenthesis
               && String.eqb (Value token) "("
            then
              match ParseExpression tokens1 with
              | Done (expression, tokens2) =>
                  if not_next ")" tokens2
                  then Done (ErrorNode "expected ')'", tokens2)
                  else Done (expression, tail tokens2)
              | Throws what => Throws what
              | OutOfFuel => OutOfFuel
              end
            else
              Done (ErrorNode
                      ("unexpected token " +:+ Value token
                       +:+ " (type = " +:+ TokenType.to_string ty
                       +:+ ")"),
                    tokens)
        end
    end.

Definition ParseExponentiation (turns : nat) (ParseExpression : method)
    : method :=
  level (String.eqb "^") (ParsePrimary ParseExpression)
    OperatorNode turns.

Definition ParseMultiplicationDivision (turns : nat)
    (ParseExpression : method) : method :=
  level (fun v => String.eqb v "*" || String.eqb v "/")
    (ParseExponentiation turns ParseExpression) OperatorNode turns.

Definition ParseAdditionSubtraction (turns : nat)
    (ParseExpression : method) : method :=
  level (fun v => String.eqb v "+" || String.eqb v "-")
    (ParseMultiplicationDivision turns ParseExpression)
    OperatorNode turns.

Definition ParseEquals (turns : nat) (ParseExpression : method)
    : method :=
  level (String.eqb "=")
    (ParseAdditionSubtraction turns ParseExpression)
    (fun _ => EqualsNode) turns.

(** [ParseExpression] with a budget: [fuel] bounds the depth of
    nested expressions and the turns of each loop. *)
Fixpoint ParseExpression_fuel (fuel : nat) : method :=
  match fuel with
  | O => fun _ => OutOfFuel
  | S fuel' => ParseEquals fuel' (ParseExpression_fuel fuel')
  end.

(** Every nested expression and every turn of a loop comes after a
    consumed token, so the number of tokens is budget enough
    ([ParseExpression_total] below). *)
Definition ParseExpression (m_Tokens : list Token) : outcome AstNode :=
  match ParseExpression_fuel (S (length m_Tokens)) m_Tokens with
  | Done (node, _) => Done node
  | Throws what => Throws what
  | OutOfFuel => OutOfFuel
  end.

End Methods.

End Parser.

(** * The vocabulary of the properties *)

(** ** The registry *)

(** The names [Init] registers a function under. *)
Definition Init_function_names : list string :=
  ["sin"; "cos"; "tan"; "cot"; "sec"; "csc"; "sinh"; "cosh"; "tanh";
   "coth"; "sech"; "csch"; "log"; "ln"; "sqrt"; "abs"].

(** The entries of the registry after [Init] in a fresh process. *)
Definition standard_functions : list (string * Function) :=
  [("sin", SineFunction); ("cos", CosineFunction);
   ("tan", TangentFunction); ("cot", CotangentFunction);
   ("sec", SecantFunction); ("csc", CosecantFunction);
   ("sinh", HyperbolicSineFunction); ("cosh", HyperbolicCosineFunction);
   ("tanh", HyperbolicTangentFunction);
   ("coth", HyperbolicCotangentFunction);
   ("sech", HyperbolicSecantFunction);
   ("csch", HyperbolicCosecantFunction);
   ("log", Base10LogarithmFunction); ("ln", NaturalLogarithmFunction);
   ("sqrt", SquareRootFunction); ("abs", ModulusFunction)].

(** ** Trees *)

(** A [Number] node whose value compares equal to [k]. *)
Definition is_Number (k : float) (node : AstNode) : bool :=
  match node with
  | NumberNode v => (v =? k)%float
  | _ => false
  end.

(** The tree has an [ErrorNode] somewhere, the argument slot of a
    function node whose function was not found included. *)
Fixpoint contains_Error (node : AstNode) : bool :=
  match node with
  | ErrorNode _ | FunctionNode_null _ => true
  | OperatorNode _ l r | EqualsNode l r =>
      contains_Error l || contains_Error r
  | FunctionNode _ a => contains_Error a
  | NumberNode _ | VariableNode _ | ConstantNode _ _
  | DifferentialNode _ _ _ => false
  end.

(** The errors the symbolic operations do absorb: the node itself, a
    child of an operator or of an equation (at any depth through those),
    or the argument of a function node itself. *)
Fixpoint exposes_Error (node : AstNode) : bool :=
  match node with
  | ErrorNode _ | FunctionNode_null _ => true
  | OperatorNode _ l r | EqualsNode l r =>
      exposes_Error l || exposes_Error r
  | FunctionNode _ a => is_ErrorNode a
  | NumberNode _ | VariableNode _ | ConstantNode _ _
  | DifferentialNode _ _ _ => false
  end.

(** The tree the parser builds for [sin(sin())]. *)
Definition sin_sin_error : AstNode :=
  FunctionNode SineFunction
    (FunctionNode SineFunction (ErrorNode "unexpected token ) (type = 5)")).

(** ** Token lists and parser methods *)

(** On fewer than [n] tokens the method ends without exhausting its
    budget, leaves no more tokens than it found, and fewer when its node
    is not an error. *)
Definition below (n : nat) (m : Parser.method) : Prop :=
  forall tokens, (length tokens < n)%nat ->
    m tokens <> OutOfFuel
    /\ forall node rest, m tokens = Done (node, rest) ->
         (length rest <= length tokens)%nat
         /\ (is_ErrorNode node = false ->
             (length rest < length tokens)%nat).

(** The token of a variable and the token of an operator symbol. *)
Definition variable_token (name : string) : Token :=
  mkToken TokenType.Variable_ name.

Definition operator_token (op : string) : Token :=
  mkToken TokenType.Operator op.





(** ** More vocabulary: registries and trees *)

(** The registry dispatches the id of the class [f] to [f]. *)
Definition dispatches (cfg : Configuration) (f : Function) : Prop :=
  GetFunction cfg (GetExpressionID f) = Some f.

(** Every class that [Init] registers is found under its own id. *)
Definition standard_registry (cfg : Configuration) : Prop :=
  forall f, f <> ExponentialFunction -> dispatches cfg f.

(** The operator symbols [OperatorNode::Differentiate] has a rule for. *)
Definition known_operator (op : string) : bool :=
  (op =? "+")%string || (op =? "-")%string || (op =? "*")%string
  || (op =? "/")%string || (op =? "^")%string.

(** The trees on which [Differentiate] answers with an error: those of
    [exposes_Error], and those with an unknown operator symbol at a node
    reached through operator and equation nodes. *)
Fixpoint Differentiate_fails (node : AstNode) : bool :=
  match node with
  | ErrorNode _ | FunctionNode_null _ => true
  | OperatorNode op l r =>
      Differentiate_fails l || Differentiate_fails r
      || negb (known_operator op)
  | EqualsNode l r => Differentiate_fails l || Differentiate_fails r
  | FunctionNode _ a => is_ErrorNode a
  | NumberNode _ | VariableNode _ | ConstantNode _ _
  | DifferentialNode _ _ _ => false
  end.

(** No function node of the tree has a null function pointer, and none
    is of the class [ExponentialFunction], which [Init] leaves out. *)
Fixpoint registered_only (node : AstNode) : bool :=
  match node with
  | FunctionNode_null _ => false
  | FunctionNode f a =>
      match f with
      | ExponentialFunction => false
      | _ => registered_only a
      end
  | OperatorNode _ l r | EqualsNode l r =>
      registered_only l && registered_only r
  | ErrorNode _ | NumberNode _ | VariableNode _ | ConstantNode _ _
  | DifferentialNode _ _ _ => true
  end.

(** The names of the [VariableNode]s of a tree. *)
Fixpoint variables (node : AstNode) : gset string :=
  match node with
  | VariableNode name => {[ name ]}
  | OperatorNode _ l r | EqualsNode l r => variables l ∪ variables r
  | FunctionNode _ a => variables a
  | ErrorNode _ | NumberNode _ | ConstantNode _ _
  | DifferentialNode _ _ _ | FunctionNode_null _ => ∅
  end.

(** [Evaluate] reaches a function node with a null function pointer: it
    descends through operator and function nodes only. *)
Fixpoint calls_null (node : AstNode) : bool :=
  match node with
  | FunctionNode_null _ => true
  | OperatorNode _ l r => calls_null l || calls_null r
  | FunctionNode _ a => calls_null a
  | ErrorNode _ | NumberNode _ | VariableNode _ | ConstantNode _ _
  | EqualsNode _ _ | DifferentialNode _ _ _ => false
  end.

(** [op] is one of [+ - * /]. *)
Definition is_arithmetic (op : string) : bool :=
  (op =? "+")%string || (op =? "-")%string || (op =? "*")%string
  || (op =? "/")%string.

(** A NaN is produced below and carried to the root by IEEE-754
    arithmetic alone: it comes from an error, an equation, a
    differential, a variable that [variableValues] does not bind or an
    unknown operator symbol, and passes through [+ - * /] and [sqrt]. *)
Fixpoint carries_NaN (variableValues : gmap string float)
    (node : AstNode) : bool :=
  match node with
  | ErrorNode _ | EqualsNode _ _ | DifferentialNode _ _ _ => true
  | VariableNode name =>
      match variableValues !! name with Some _ => false | None => true end
  | OperatorNode op l r =>
      if is_arithmetic op
      then carries_NaN variableValues l || carries_NaN variableValues r
      else negb (op =? "^")%string
  | FunctionNode f a =>
      match f with
      | SquareRootFunction => carries_NaN variableValues a
      | _ => false
      end
  | NumberNode _ | ConstantNode _ _ | FunctionNode_null _ => false
  end.

(** A [LibC] to instantiate statements with that hold for every C
    library: it knows no function (NaN everywhere) and [std::stod]
    accepts no string.  Nothing is proved about the library through
    it. *)
Definition LibC_none : LibC :=
  {| c_sin := fun _ => nan; c_cos := fun _ => nan; c_tan := fun _ => nan;
     c_sinh := fun _ => nan; c_cosh := fun _ => nan;
     c_tanh := fun _ => nan; c_log10 := fun _ => nan;
     c_log := fun _ => nan; c_exp := fun _ => nan;
     c_pow := fun _ _ => nan; c_stod := fun _ => None |}.

(** ** More vocabulary: words *)

(** A non-empty string of letters. *)
Definition is_word_of_letters (word : string) : bool :=
  match list_ascii_of_string word with
  | [] => false
  | s => forallb Regex.is_letter s
  end.

(** No entry of the registry has the empty string as its name. *)
Definition no_empty_name (cfg : Configuration) : Prop :=
  GetFunction cfg "" = None /\ s_Constants cfg !! "" = None.

(** A non-empty string of letters, digits and [_]: as a regular
    expression it matches itself and nothing else. *)
Definition is_literal_name (name : string) : bool :=
  match list_ascii_of_string name with
  | [] => false
  | s => forallb Regex.is_word s
  end.

(** The registries [Tokenize] builds its patterns from without harm:
    there is a function and there is a constant (the source removes the
    last character of the joined names), and every name is literal. *)
Definition literal_names (cfg : Configuration) : bool :=
  let usable (names : list string) :=
    match names with
    | [] => false
    | _ => forallb is_literal_name names
    end in
  usable (Tokenizer.GetFunctionIDs cfg)
  && usable (Tokenizer.GetConstantNames cfg).

(** The type of a word by the registry: a function id, else a constant
    name, else a variable. *)
Definition word_type (cfg : Configuration) (word : string) : TokenType.t :=
  match GetFunction cfg word with
  | Some _ => TokenType.Function
  | None =>
      match s_Constants cfg !! word with
      | Some _ => TokenType.Constant
      | None => TokenType.Variable_
      end
  end.

(** ** More vocabulary: expressions without parentheses *)

(** The next token, if there is one, carries none of the symbols. *)
Definition stops (symbols : string -> bool) (rest : list Token) : Prop :=
  match rest with
  | [] => True
  | token :: _ => symbols (Value token) = false
  end.

(** The method reads [tokens] and returns [node], whatever follows that
    stops it. *)
Definition parses (symbols : string -> bool) (m : Parser.method)
    (tokens : list Token) (node : AstNode) : Prop :=
  forall rest, stops symbols rest ->
    m (tokens ++ rest)%list = Done (node, rest).

(** Operands joined by operator symbols: a first operand and the
    following pairs of a symbol and an operand. *)
Definition chain (A : Type) : Type := (A * list (string * A))%type.

Definition chain_tokens {A : Type} (tokens_of : A -> list Token)
    (c : chain A) : list Token :=
  (tokens_of (fst c)
   ++ flat_map
        (fun item => operator_token (fst item) :: tokens_of (snd item))
        (snd c))%list.

(** The tree nested to the left. *)
Definition chain_tree {A : Type} (tree_of : A -> AstNode) (c : chain A)
    : AstNode :=
  fold_left (fun acc item => OperatorNode (fst item) acc (tree_of (snd item)))
    (snd c) (tree_of (fst c)).

Definition chain_ok {A : Type} (symbols : string -> bool) (ok : A -> Prop)
    (c : chain A) : Prop :=
  ok (fst c)
  /\ Forall (fun item => symbols (fst item) = true /\ ok (snd item)) (snd c).

(** Powers of variables, products and quotients of powers, sums and
    differences of products. *)
Definition power : Type := chain string.
Definition product : Type := chain power.
Definition sum : Type := chain product.

Definition is_power_symbol (v : string) : bool := String.eqb "^" v.
Definition is_product_symbol (v : string) : bool :=
  String.eqb v "*" || String.eqb v "/".
Definition is_sum_symbol (v : string) : bool :=
  String.eqb v "+" || String.eqb v "-".

Definition power_tokens : power -> list Token :=
  chain_tokens (fun x => [variable_token x]).
Definition product_tokens : product -> list Token :=
  chain_tokens power_tokens.
Definition sum_tokens : sum -> list Token := chain_tokens product_tokens.

Definition power_tree : power -> AstNode := chain_tree VariableNode.
Definition product_tree : product -> AstNode := chain_tree power_tree.
Definition sum_tree : sum -> AstNode := chain_tree product_tree.

Definition power_ok : power -> Prop :=
  chain_ok is_power_symbol (fun _ => True).
Definition product_ok : product -> Prop :=
  chain_ok is_product_symbol power_ok.
Definition sum_ok : sum -> Prop := chain_ok is_sum_symbol product_ok.

(** A token no expression can start with: an operator, [=], an unknown
    character or a closing parenthesis. *)
Definition cannot_start (token : Token) : bool :=
  match Type_ token with
  | TokenType.Operator | TokenType.Equals | TokenType.Unknown => true
  | TokenType.Parenthesis => negb (String.eqb (Value token) "(")
  | _ => false
  end.

(** The message of [ParsePrimary] for such a token. *)
Definition unexpected_token (token : Token) : string :=
  "unexpected token " +:+ Value token +:+ " (type = "
  +:+ TokenType.to_string (Type_ token) +:+ ")".

(** [std::stod] accepts the text of the token if it is a [Number]. *)
Definition number_accepted (lib : LibC) (token : Token) : bool :=
  match Type_ token with
  | TokenType.Number =>
      match c_stod lib (Value token) with Some _ => true | None => false end
  | _ => true
  end.

(** The method does not throw on tokens whose numbers [std::stod]
    accepts, and leaves such tokens. *)
Definition never_throws (lib : LibC) (m : Parser.method) : Prop :=
  forall tokens, forallb (number_accepted lib) tokens = true ->
    match m tokens with
    | Done (_, rest) => forallb (number_accepted lib) rest = true
    | Throws _ => False
    | OutOfFuel => True
    end.

(** A [NumberNode] or a [ConstantNode]. *)
Definition is_Number_or_Constant (node : AstNode) : bool :=
  match node with
  | NumberNode _ | ConstantNode _ _ => true
  | _ => false
  end.

(** The float is neither [0] nor [1] for [==]. *)
Definition not_0_or_1 (k : float) : bool :=
  negb (k =? 0)%float && negb (k =? 1)%float.

(** ** Values *)

(** The spec float is a zero; it is a zero or a finite number. *)
Definition SF_is_zero (x : spec_float) : bool :=
  match x with S754_zero _ => true | _ => false end.

Definition SF_is_finite (x : spec_float) : bool :=
  match x with S754_zero _ | S754_finite _ _ _ => true | _ => false end.

(** [std::isfinite]: the double is neither a NaN nor an infinity. *)
Definition is_finite_double (v : float) : bool := SF_is_finite (Prim2SF v).

(** Every node of the tree has a value under [env], and a finite one
    (so every variable of the tree is bound). *)
Fixpoint finite_values (lib : LibC) (env : gmap string float)
    (node : AstNode) : bool :=
  match Evaluate lib env node with
  | Some v => is_finite_double v
  | None => false
  end
  && match node with
     | OperatorNode _ l r | EqualsNode l r =>
         finite_values lib env l && finite_values lib env r
     | FunctionNode _ a => finite_values lib env a
     | _ => true
     end.






(** * Properties *)

(** ** Derivatives of the leaves *)

(** C7: the derivative of a number or of a named constant is
    [Number(0)]; the derivative of a variable with respect to itself is
    [Number(1)], and with respect to another name it is a
    [Differential] node of order 1. *)
Theorem leaf_derivatives (cfg : Configuration) (v : string) :
  (forall k, Differentiate cfg v (NumberNode k) = NumberNode 0)
  /\ (forall value c,
        Differentiate cfg v (ConstantNode value c) = NumberNode 0)
  /\ Differentiate cfg v (VariableNode v) = NumberNode 1
  /\ (forall u, u <> v ->
        Differentiate cfg v (VariableNode u) = DifferentialNode u v 1).
Proof.
  repeat split; try reflexivity.
  - simpl. now rewrite String.eqb_refl.
  - intros u Hne. simpl.
    destruct (String.eqb_spec u v) as [->|_]; [contradiction | reflexivity].
Qed.

Lemma leaf_derivatives_witness :
  Differentiate Configuration_std "x" (VariableNode "y")
  = DifferentialNode "y" "x" 1.
Proof.
  apply (proj2 (proj2 (proj2 (leaf_derivatives Configuration_std "x")))).
  discriminate.
Defined.

(** ** The registry *)

Section Registry.

Implicit Types (cfg : Configuration) (T : Function) (id name : string).

Lemma GetFunction_AddFunction_ne T id id' cfg :
  id <> id' -> GetFunction (AddFunction T id cfg) id' = GetFunction cfg id'.
Proof.
  intros Hne. unfold GetFunction, AddFunction.
  destruct (s_Functions cfg !! id); simpl; [reflexivity |].
  now apply lookup_insert_ne.
Qed.

Lemma GetFunction_AddFunction_new T id cfg :
  GetFunction cfg id = None -> GetFunction (AddFunction T id cfg) id = Some T.
Proof.
  unfold GetFunction, AddFunction. intros ->. simpl. apply lookup_insert_eq.
Qed.

Lemma AddFunction_registered T id cfg :
  is_Some (GetFunction cfg id) -> AddFunction T id cfg = cfg.
Proof.
  unfold GetFunction, AddFunction. intros [f ->]. reflexivity.
Qed.

Lemma GetFunction_AddFunction_is_Some T id id' cfg :
  is_Some (GetFunction cfg id') ->
  is_Some (GetFunction (AddFunction T id cfg) id').
Proof.
  intros H. destruct (decide (id = id')) as [->|Hne].
  - now rewrite AddFunction_registered.
  - now rewrite GetFunction_AddFunction_ne.
Qed.

Lemma GetFunction_AddFunction_same T id cfg :
  is_Some (GetFunction (AddFunction T id cfg) id).
Proof.
  destruct (GetFunction cfg id) as [f|] eqn:E.
  - rewrite AddFunction_registered; rewrite E; eauto.
  - rewrite GetFunction_AddFunction_new; eauto.
Qed.

Lemma GetFunction_AddConstant name value cfg id :
  GetFunction (AddConstant name value cfg) id = GetFunction cfg id.
Proof. reflexivity. Qed.

Lemma GetFunction_set_Init b cfg id :
  GetFunction (set_Init b cfg) id = GetFunction cfg id.
Proof. reflexivity. Qed.

Lemma s_Constants_AddFunction T id cfg :
  s_Constants (AddFunction T id cfg) = s_Constants cfg.
Proof. unfold AddFunction. now destruct (s_Functions cfg !! id). Qed.

Lemma s_Init_AddFunction T id cfg :
  s_Init (AddFunction T id cfg) = s_Init cfg.
Proof. unfold AddFunction. now destruct (s_Functions cfg !! id). Qed.

Lemma s_Init_Init cfg : s_Init (Init cfg) = true.
Proof. unfold Init. destruct (s_Init cfg) eqn:E; [exact E | reflexivity]. Qed.

Lemma Init_idempotent cfg : Init (Init cfg) = Init cfg.
Proof. unfold Init at 1. now rewrite s_Init_Init. Qed.

(** [Init] registers nothing under the name [exp]. *)
Lemma Init_leaves_exp cfg :
  GetFunction (Init cfg) "exp" = GetFunction cfg "exp".
Proof.
  unfold Init. destruct (s_Init cfg); [reflexivity |].
  rewrite GetFunction_set_Init, !GetFunction_AddConstant.
  now rewrite !GetFunction_AddFunction_ne by discriminate.
Qed.

(** Whatever the registry held, a call of [Init] that runs (the flag was
    not set) leaves an entry under each of these names. *)
Lemma Init_registers cfg id :
  s_Init cfg = false -> In id Init_function_names ->
  is_Some (GetFunction (Init cfg) id).
Proof.
  intros E Hin. unfold Init. rewrite E.
  rewrite GetFunction_set_Init, !GetFunction_AddConstant.
  unfold Init_function_names in Hin.
  repeat (destruct Hin as [<-|Hin];
          [ repeat first [ apply GetFunction_AddFunction_same
                         | apply GetFunction_AddFunction_is_Some ] | ]).
  contradiction.
Qed.

Lemma GetConstantValue_Init cfg :
  s_Init cfg = false ->
  GetConstantValue (Init cfg) "e" = Double.e
  /\ GetConstantValue (Init cfg) "pi" = Double.pi.
Proof.
  intros E. unfold Init, GetConstantValue. rewrite E.
  unfold set_Init, AddConstant. cbn [s_Constants].
  rewrite lookup_insert_ne by discriminate.
  now rewrite !lookup_insert_eq.
Qed.

End Registry.

(** C3: after [Init] in a fresh process every standard name except
    [exp] has its dispatch entry, the constants [e] and [pi] have their
    binary64 values and a second [Init] changes nothing; but [Init]
    never registers [ExponentialFunction], so [GetFunction("exp")] is the
    null pointer, and a [FunctionNode("exp", x)] is poisoned. *)
Theorem Init_registry :
  Forall (fun entry => GetFunction Configuration_std (fst entry)
                       = Some (snd entry)) standard_functions
  /\ GetFunction Configuration_std "exp" = None
  /\ (forall cfg, GetFunction (Init cfg) "exp" = GetFunction cfg "exp")
  /\ new_FunctionNode Configuration_std "exp" (VariableNode "x")
     = FunctionNode_null "Could not find function exp"
  /\ GetConstantValue Configuration_std "e" = Double.e
  /\ GetConstantValue Configuration_std "pi" = Double.pi
  /\ (forall cfg, Init (Init cfg) = Init cfg).
Proof.
  split; [| split; [| split; [| split; [| split; [| split]]]]].
  - repeat constructor; now vm_compute.
  - now vm_compute.
  - apply Init_leaves_exp.
  - now vm_compute.
  - now vm_compute.
  - now vm_compute.
  - apply Init_idempotent.
Qed.

(** [AddConstant] on a registered name replaces the value: the first
    registration does not win. *)
Lemma AddConstant_overwrites :
  let cfg := AddConstant "k" 1 Configuration_std in
  GetConstantValue cfg "k" = 1%float
  /\ GetConstantValue (AddConstant "k" 2 cfg) "k" = 2%float
  /\ s_Constants (AddConstant "k" 2 cfg) !! "k" <> s_Constants cfg !! "k".
Proof.
  split; [now vm_compute | split; [now vm_compute |]].
  intros H.
  apply (f_equal (fun o => match o with
                           | Some v => (v =? 1)%float
                           | None => false
                           end)) in H.
  vm_compute in H. discriminate.
Qed.

(** C9 (as the code has it): [AddFunction] on a registered id leaves the
    registry as it was, and registers the class on a free id;
    [AddConstant] always stores the new value under the name, replacing
    an earlier one, and leaves the other names alone. *)
Theorem registration_policy (cfg : Configuration) :
  (forall T id, is_Some (GetFunction cfg id) -> AddFunction T id cfg = cfg)
  /\ (forall T id, GetFunction cfg id = None ->
        GetFunction (AddFunction T id cfg) id = Some T)
  /\ (forall name value,
        s_Constants (AddConstant name value cfg) !! name = Some value)
  /\ (forall name name' value, name <> name' ->
        s_Constants (AddConstant name value cfg) !! name'
        = s_Constants cfg !! name').
Proof.
  split; [| split; [| split]].
  - intros T id. apply AddFunction_registered.
  - intros T id. apply GetFunction_AddFunction_new.
  - intros name value. apply lookup_insert_eq.
  - intros name name' value Hne. now apply lookup_insert_ne.
Qed.

Lemma registration_policy_witness :
  AddFunction CosineFunction "sin" Configuration_std = Configuration_std
  /\ GetFunction (AddFunction ExponentialFunction "exp" Configuration_std)
       "exp" = Some ExponentialFunction
  /\ s_Constants (AddConstant "e" 3 Configuration_std) !! "pi"
     = s_Constants Configuration_std !! "pi".
Proof.
  destruct (registration_policy Configuration_std) as (H1 & H2 & _ & H4).
  split; [| split].
  - apply H1. vm_compute. eauto.
  - apply H2. now vm_compute.
  - apply H4. discriminate.
Defined.

(** ** Differential nodes *)

Lemma int_add_1 (n : Z) :
  Double.INT_MIN <= n < Double.INT_MAX -> Double.int_add n 1 = n + 1.
Proof.
  unfold Double.INT_MIN, Double.INT_MAX, Double.int_add, Double.wrap_int.
  intros H. rewrite Z.mod_small; lia.
Qed.

(** C10: for a [Differential] node dV/dW of order [n] (an [int] below
    [INT_MAX], so that [n + 1] is an [int]), the derivative with respect
    to [W] is the node of order [n + 1], the derivative with respect to
    another name [t] is the product of that node and dW/dt of order 1,
    and [Simplify] rebuilds the same node. *)
Theorem DifferentialNode_rules (cfg : Configuration) (V W : string) (n : Z) :
  Double.INT_MIN <= n < Double.INT_MAX ->
  Differentiate cfg W (DifferentialNode V W n) = DifferentialNode V W (n + 1)
  /\ (forall t, t <> W ->
        Differentiate cfg t (DifferentialNode V W n)
        = OperatorNode "*" (DifferentialNode V W (n + 1))
                           (DifferentialNode W t 1))
  /\ Simplify cfg (DifferentialNode V W n) = DifferentialNode V W n.
Proof.
  intros Hn. cbn [Differentiate Simplify]. rewrite (int_add_1 n Hn).
  split; [| split].
  - now rewrite String.eqb_refl.
  - intros t Hne.
    destruct (String.eqb_spec t W) as [->|_]; [contradiction | reflexivity].
  - reflexivity.
Qed.

Lemma DifferentialNode_rules_witness :
  Differentiate Configuration_std "x" (DifferentialNode "y" "x" 1)
  = DifferentialNode "y" "x" 2
  /\ Differentiate Configuration_std "t" (DifferentialNode "y" "x" 1)
     = OperatorNode "*" (DifferentialNode "y" "x" 2)
                        (DifferentialNode "x" "t" 1).
Proof.
  assert (Hn : Double.INT_MIN <= 1 < Double.INT_MAX) by (vm_compute; intuition discriminate).
  destruct (DifferentialNode_rules Configuration_std "y" "x" 1 Hn)
    as (H1 & H2 & _).
  split; [exact H1 | apply H2; discriminate].
Defined.

(** ** The rules of [Simplify] for [^] *)

(** [0^0] is not left as it is: the rule for a zero exponent rewrites it
    to [Number(1)]. *)
Lemma Simplify_zero_pow_zero :
  let node := OperatorNode "^" (NumberNode 0) (NumberNode 0) in
  Simplify Configuration_std node = NumberNode 1
  /\ Simplify Configuration_std node <> node.
Proof. split; [reflexivity | discriminate]. Qed.

(** Comparison of doubles with the literals 0 and 1, from the IEEE-754
    specification of [==]. *)
Lemma SFeqb_finite_eq (x : spec_float) (m : positive) (e : Z) :
  SFeqb x (S754_finite false m e) = true -> x = S754_finite false m e.
Proof.
  unfold SFeqb, SFcompare.
  destruct x as [sg | sg | | sg m' e']; try discriminate.
  - destruct sg; discriminate.
  - destruct sg; try discriminate.
    destruct (e' ?= e) eqn:He; try discriminate.
    destruct (PosDef.Pos.compare_cont Eq m' m) eqn:Hm; try discriminate.
    intros _. apply Z.compare_eq in He. apply Pos.compare_eq in Hm.
    now subst.
Qed.

Lemma double_eq_1 (v : float) : (v =? 1)%float = true -> v = 1%float.
Proof.
  rewrite FloatAxioms.eqb_spec. intros H. apply Prim2SF_inj.
  now apply SFeqb_finite_eq in H.
Qed.

Lemma double_eq_0 (v : float) :
  (v =? 0)%float = true -> v = 0%float \/ v = (-0)%float.
Proof.
  rewrite FloatAxioms.eqb_spec. intros H.
  change (Prim2SF 0) with (S754_zero false) in H.
  unfold SFeqb, SFcompare in H.
  destruct (Prim2SF v) as [sg | sg | | sg m e] eqn:E; try discriminate.
  - destruct sg; [right | left]; apply Prim2SF_inj; rewrite E; reflexivity.
  - destruct sg; discriminate.
  - destruct sg; discriminate.
Qed.

Lemma double_eq_0_1 (v : float) :
  (v =? 0)%float = true -> (v =? 1)%float = false.
Proof. intros H. now destruct (double_eq_0 v H) as [-> | ->]. Qed.

Lemma double_eq_1_0 (v : float) :
  (v =? 1)%float = true -> (v =? 0)%float = false.
Proof. intros H. now rewrite (double_eq_1 v H). Qed.

(** C6 (as the code has it): with both children simplified and neither an
    error, [Simplify] of an [Operator] node [^] returns [Number(0)] when
    the left child is Number 0 and the right child is not Number 0;
    returns [Number(1)] when both children are Number 0; returns
    [Number(1)] when the left child is Number 1; returns the simplified
    left child when the right child is Number 1 (for a left child
    [Number(-0.0)] that is the [Number(0)] of the first rule); and
    returns [Number(1)] when the right child is Number 0. *)
Theorem Simplify_pow_rules (cfg : Configuration) (L R : AstNode) :
  is_ErrorNode (Simplify cfg L) = false ->
  is_ErrorNode (Simplify cfg R) = false ->
  let sl := Simplify cfg L in
  let sr := Simplify cfg R in
  let result := Simplify cfg (OperatorNode "^" L R) in
  (is_Number 0 sl = true -> is_Number 0 sr = false -> result = NumberNode 0)
  /\ (is_Number 0 sl = true -> is_Number 0 sr = true ->
       result = NumberNode 1)
  /\ (is_Number 1 sl = true -> result = NumberNode 1)
  /\ (is_Number 1 sr = true ->
       result = sl \/ (sl = NumberNode (-0) /\ result = NumberNode 0))
  /\ (is_Number 0 sr = true -> result = NumberNode 1).
Proof.
  intros HL HR sl sr result. subst result.
  cbn [Simplify]. fold sl sr. fold sl in HL. fold sr in HR.
  rewrite HL, HR. clearbody sl sr. clear L R.
  unfold OperatorNode_Simplify_rules, or_else, or_try; cbn -[PrimFloat.eqb].
  repeat split.
  - destruct sl as [| l | | | | | | |]; try discriminate. simpl. intros Hl.
    rewrite Hl.
    destruct sr as [| r | | | | | | |]; try discriminate; simpl;
      try reflexivity.
    now intros ->.
  - destruct sl as [| l | | | | | | |]; try discriminate.
    destruct sr as [| r | | | | | | |]; try discriminate. simpl.
    intros Hl Hr. now rewrite Hl, Hr, (double_eq_0_1 l Hl), (double_eq_0_1 r Hr).
  - destruct sl as [| l | | | | | | |]; try discriminate. simpl. intros Hl.
    now rewrite Hl, (double_eq_1_0 l Hl).
  - destruct sr as [| r | | | | | | |]; try discriminate. simpl. intros Hr.
    rewrite Hr, (double_eq_1_0 r Hr).
    destruct sl as [| l | | | | | | |]; try discriminate; simpl;
      try (now left).
    destruct (l =? 0)%float eqn:Hl; simpl.
    + destruct (double_eq_0 l Hl) as [-> | ->]; [now left | now right].
    + destruct (l =? 1)%float eqn:Hl1; [| now left].
      left. now rewrite (double_eq_1 l Hl1).
  - destruct sr as [| r | | | | | | |]; try discriminate. simpl. intros Hr.
    rewrite Hr, (double_eq_0_1 r Hr).
    destruct sl as [| l | | | | | | |]; try discriminate; simpl;
      try reflexivity.
    destruct (l =? 0)%float; simpl; destruct (l =? 1)%float; reflexivity.
Qed.

Lemma Simplify_pow_rules_witness :
  Simplify Configuration_std
    (OperatorNode "^" (NumberNode 0) (VariableNode "y")) = NumberNode 0
  /\ Simplify Configuration_std
       (OperatorNode "^" (VariableNode "x") (NumberNode 1))
     = VariableNode "x"
  /\ Simplify Configuration_std
       (OperatorNode "^" (VariableNode "x") (NumberNode 0)) = NumberNode 1.
Proof.
  split; [| split].
  - apply (Simplify_pow_rules Configuration_std
             (NumberNode 0) (VariableNode "y")); reflexivity.
  - destruct (Simplify_pow_rules Configuration_std
                (VariableNode "x") (NumberNode 1) eq_refl eq_refl)
      as (_ & _ & _ & H & _).
    destruct (H eq_refl) as [E | [E _]]; [exact E | discriminate E].
  - apply (Simplify_pow_rules Configuration_std
             (VariableNode "x") (NumberNode 0)); reflexivity.
Defined.

(** ** Error absorption *)

Lemma exposes_contains (node : AstNode) :
  exposes_Error node = true -> contains_Error node = true.
Proof.
  induction node as [| | | | op l IHl r IHr | l IHl r IHr | | f a IHa |];
    simpl; try easy.
  - rewrite !orb_true_iff. tauto.
  - rewrite !orb_true_iff. tauto.
  - now destruct a.
Qed.

Lemma Differentiate_absorbs (cfg : Configuration) (respectTo : string)
    (node : AstNode) :
  exposes_Error node = true ->
  is_ErrorNode (Differentiate cfg respectTo node) = true.
Proof.
  induction node as [| | | | op l IHl r IHr | l IHl r IHr | | f a IHa |];
    cbn [exposes_Error Differentiate]; try easy.
  - rewrite orb_true_iff. intros H. unfold OperatorNode_Differentiate.
    destruct (is_ErrorNode (Differentiate cfg respectTo l)) eqn:El;
      [exact El |].
    destruct H as [H | H]; [discriminate (IHl H) |].
    rewrite (IHr H). exact (IHr H).
  - rewrite orb_true_iff. intros H.
    destruct (is_ErrorNode (Differentiate cfg respectTo l)) eqn:El;
      [exact El |].
    destruct H as [H | H]; [discriminate (IHl H) |].
    rewrite (IHr H). exact (IHr H).
  - intros H. now rewrite H.
Qed.

Lemma Simplify_absorbs (cfg : Configuration) (node : AstNode) :
  exposes_Error node = true -> is_ErrorNode (Simplify cfg node) = true.
Proof.
  induction node as [| | | | op l IHl r IHr | l IHl r IHr | | f a IHa |];
    cbn [exposes_Error Simplify]; try easy.
  - rewrite orb_true_iff. intros H.
    destruct (is_ErrorNode (Simplify cfg l)) eqn:El; [exact El |].
    destruct H as [H | H]; [discriminate (IHl H) |].
    rewrite (IHr H). exact (IHr H).
  - rewrite orb_true_iff. intros H.
    destruct (is_ErrorNode (Simplify cfg l)) eqn:El; [exact El |].
    destruct H as [H | H]; [discriminate (IHl H) |].
    rewrite (IHr H). exact (IHr H).
  - intros H. now rewrite H.
Qed.

(** C1, where the code departs from it: the error below two function
    nodes of [sin(sin())] is not absorbed.  [Differentiate] returns a
    product with the error as a factor and [Simplify] returns a function
    node around the error, where the operator and equation nodes return
    the error of a child; [Evaluate] on a function node whose function
    was not found calls through the null pointer and returns nothing, and
    on [Error ^ 0] it returns what [pow] gives for a NaN base. *)
Theorem error_not_absorbed_below_function :
  contains_Error sin_sin_error = true
  /\ (forall lib,
        Parser.ParseExpression lib Configuration_std
          (Tokenizer.Tokenize Configuration_std "sin(sin())")
        = Done sin_sin_error)
  /\ (forall cfg respectTo,
        Differentiate cfg respectTo sin_sin_error
        = OperatorNode "*" (ErrorNode "unexpected token ) (type = 5)")
            (new_FunctionNode cfg "cos"
               (FunctionNode SineFunction
                  (ErrorNode "unexpected token ) (type = 5)")))
        /\ is_ErrorNode (Differentiate cfg respectTo sin_sin_error) = false)
  /\ (forall cfg,
        Simplify cfg sin_sin_error
        = new_FunctionNode cfg "sin"
            (ErrorNode "unexpected token ) (type = 5)")
        /\ is_ErrorNode (Simplify cfg sin_sin_error) = false)
  /\ (forall lib env,
        contains_Error
          (new_FunctionNode Configuration_std "exp" (VariableNode "x")) = true
        /\ Evaluate lib env
             (new_FunctionNode Configuration_std "exp" (VariableNode "x"))
           = None)
  /\ (forall lib env m,
        Evaluate lib env (OperatorNode "^" (ErrorNode m) (NumberNode 0))
        = Some (c_pow lib nan 0)).
Proof.
  split; [reflexivity |].
  split; [intros lib; now vm_compute |].
  split; [intros cfg respectTo; split; reflexivity |].
  split.
  - intros cfg. split; [reflexivity |].
    change (Simplify cfg sin_sin_error)
      with (new_FunctionNode cfg "sin"
              (ErrorNode "unexpected token ) (type = 5)")).
    unfold new_FunctionNode. now destruct (GetFunction cfg "sin").
  - split; [intros lib env; split; now vm_compute | reflexivity].
Qed.

(** ** [Simplify] and the value of a tree *)

(** [0/0] has no error and no variable and evaluates to NaN, but
    [Simplify] rewrites it to [Number(0)] by the rule [0/R -> 0], which
    does not look at [R]; in the same way [0 * (1/0)], which evaluates
    to NaN, becomes [Number(0)] by the rule [0*R -> 0]: for every
    library, registry and environment. *)
Theorem Simplify_changes_value (lib : LibC) (cfg : Configuration)
    (env : gmap string float) :
  let zero_by_zero := OperatorNode "/" (NumberNode 0) (NumberNode 0) in
  let zero_times_inf :=
    OperatorNode "*" (NumberNode 0)
      (OperatorNode "/" (NumberNode 1) (NumberNode 0)) in
  contains_Error zero_by_zero = false
  /\ Evaluate lib env zero_by_zero = Some nan
  /\ Evaluate lib env (Simplify cfg zero_by_zero) = Some 0%float
  /\ contains_Error zero_times_inf = false
  /\ Evaluate lib env zero_times_inf = Some nan
  /\ Evaluate lib env (Simplify cfg zero_times_inf) = Some 0%float.
Proof. repeat split. Qed.


(** ** Doubles: [==] and the arithmetic that [Simplify] removes *)

Section Doubles.

Local Open Scope float_scope.

Lemma SFeqb_cases (x y : spec_float) :
  SFeqb x y = true ->
  (x = y /\ x <> S754_nan) \/ (SF_is_zero x = true /\ SF_is_zero y = true).
Proof.
  unfold SFeqb, SFcompare.
  destruct x as [s | s | | s m e], y as [s' | s' | | s' m' e'];
    try discriminate; try (right; split; reflexivity);
    try (destruct s; discriminate); try (destruct s'; discriminate).
  - destruct s, s'; try discriminate; left; split; congruence.
  - destruct s, s'; try discriminate;
      destruct (e ?= e')%Z eqn:He; try discriminate;
      destruct (PosDef.Pos.compare_cont Eq m m') eqn:Hm; try discriminate;
      intros _; apply Z.compare_eq in He; apply Pos.compare_eq in Hm;
      subst; left; split; congruence.
Qed.







End Doubles.

Section Units.

Local Open Scope float_scope.









End Units.

Section DoubleEquality.

Local Open Scope float_scope.




Lemma double_eqb_finite (a b : float) :
  (a =? b) = true -> is_finite_double b = true ->
  is_finite_double a = true.
Proof.
  unfold is_finite_double. rewrite FloatAxioms.eqb_spec. intros Hab Hb.
  destruct (SFeqb_cases _ _ Hab) as [[-> _] | [Za _]]; [exact Hb |].
  now destruct (Prim2SF a).
Qed.















Lemma double_opp_finite (a : float) :
  is_finite_double a = true -> is_finite_double (- a) = true.
Proof.
  unfold is_finite_double. rewrite FloatAxioms.opp_spec.
  now destruct (Prim2SF a).
Qed.

End DoubleEquality.

Section ValueKept.

Local Open Scope float_scope.

Variable lib : LibC.
Variable cfg : Configuration.
Variable env : gmap string float.



(** The value of an operand of [Simplify]'s rules: [sl] and [sr] are the
    simplified children, [ls] and [rs] their values, [lv] and [rv] the
    values of the children themselves. *)
Variables (sl sr : AstNode) (ls rs lv rv : float).
Hypothesis Hsl : Evaluate lib env sl = Some ls.
Hypothesis Hsr : Evaluate lib env sr = Some rs.
Hypothesis Hl : (ls =? lv) = true.
Hypothesis Hr : (rs =? rv) = true.
Hypothesis Hlv : is_finite_double lv = true.
Hypothesis Hrv : is_finite_double rv = true.












End ValueKept.


(** Outside these trees the value can change by more than a rounding:
    a quotient shows the sign of a zero, which [L + 0 -> L] does not
    keep, and distributing a factor can overflow. *)
Lemma Simplify_changes_quotient (lib : LibC) (cfg : Configuration) :
  let T :=
    OperatorNode "/" (NumberNode 1)
      (OperatorNode "+" (VariableNode "x") (NumberNode 0)) in
  let env : gmap string float := {[ "x" := (-0)%float ]} in
  Evaluate lib env T = Some infinity
  /\ Evaluate lib env (Simplify cfg T) = Some neg_infinity.
Proof. split; now vm_compute. Qed.

Lemma Simplify_distribution_overflows (lib : LibC) (cfg : Configuration) :
  let T :=
    OperatorNode "*"
      (OperatorNode "+" (VariableNode "x") (VariableNode "y"))
      (NumberNode 10) in
  let env : gmap string float :=
    <[ "y" := (-0x1p+1023)%float ]> {[ "x" := 0x1p+1023%float ]} in
  finite_values lib env T = true
  /\ Evaluate lib env T = Some 0%float
  /\ Evaluate lib env (Simplify cfg T) = Some nan.
Proof. repeat split; now vm_compute. Qed.


(** ** The parser returns *)

Section ParserTotal.

Variable lib : LibC.
Variable cfg : Configuration.

Lemma loop_below accepts operand build n :
  below n operand ->
  forall turns leftNode tokens,
    (length tokens <= turns)%nat -> (length tokens < n)%nat ->
    Parser.loop accepts operand build turns leftNode tokens <> OutOfFuel
    /\ forall node rest,
         Parser.loop accepts operand build turns leftNode tokens
         = Done (node, rest) ->
         (length rest <= length tokens)%nat.
Proof.
  intros Hop. induction turns as [| turns IH]; intros leftNode tokens Ht Hn.
  - destruct tokens as [| token tokens']; [| simpl in Ht; lia].
    simpl. split; [discriminate |].
    intros node rest [= <- <-]. simpl. lia.
  - destruct tokens as [| token tokens'].
    + simpl. split; [discriminate |].
      intros node rest [= <- <-]. simpl. lia.
    + cbn [Parser.loop]. simpl in Ht, Hn.
      destruct (negb (accepts (Value token))).
      * split; [discriminate |]. intros node rest [= <- <-]. simpl. lia.
      * destruct (Hop tokens') as [Hne Hlen]; [lia |].
        destruct (operand tokens') as [[rightNode tokens''] | what |];
          [| split; [discriminate | discriminate] | contradiction].
        destruct (Hlen rightNode tokens'' eq_refl) as [Hle Hlt].
        destruct (is_ErrorNode rightNode) eqn:E.
        -- split; [discriminate |].
           intros node rest [= <- <-]. simpl. lia.
        -- specialize (Hlt eq_refl).
           destruct (IH (build (Value token) leftNode rightNode) tokens'')
             as [IHne IHlen]; [lia | lia |].
           split; [exact IHne |].
           intros node rest Hd. specialize (IHlen node rest Hd).
           simpl. lia.
Qed.

Lemma level_below accepts operand build n turns :
  below n operand -> (n <= S turns)%nat ->
  below n (Parser.level accepts operand build turns).
Proof.
  intros Hop Hturns tokens Hn. unfold Parser.level.
  destruct (Hop tokens Hn) as [Hne Hlen].
  destruct (operand tokens) as [[leftNode tokens'] | what |];
    [| split; [discriminate | discriminate] | contradiction].
  destruct (Hlen leftNode tokens' eq_refl) as [Hle Hlt].
  destruct (is_ErrorNode leftNode) eqn:E.
  - split; [discriminate |].
    intros node rest [= <- <-]. split; [exact Hle | congruence].
  - specialize (Hlt eq_refl).
    destruct (loop_below accepts operand build n Hop turns leftNode tokens')
      as [Lne Llen]; [lia | lia |].
    split; [exact Lne |].
    intros node rest Hd. specialize (Llen node rest Hd). lia.
Qed.

Lemma not_next_false text tokens :
  Parser.not_next text tokens = false ->
  (length (tail tokens) < length tokens)%nat.
Proof. destruct tokens; [discriminate | simpl; lia]. Qed.

Lemma is_ErrorNode_new_FunctionNode funcID argument :
  is_ErrorNode (new_FunctionNode cfg funcID argument) = false.
Proof. unfold new_FunctionNode. now destruct (GetFunction cfg funcID). Qed.

Lemma length_tail_le (tokens : list Token) :
  (length (tail tokens) <= length tokens)%nat.
Proof. destruct tokens; simpl; lia. Qed.

Lemma ParsePrimary_below ParseExpression n :
  below n ParseExpression ->
  below (S n) (Parser.ParsePrimary lib cfg ParseExpression).
Proof.
  intros HPE tokens Hn. unfold Parser.ParsePrimary.
  destruct tokens as [| token tokens1].
  { split; [discriminate |]. intros node rest [= <- <-].
    split; [lia | discriminate]. }
  simpl in Hn.
  assert (Hnested : forall toks, (length toks <= length tokens1)%nat ->
            ParseExpression toks <> OutOfFuel
            /\ forall node rest, ParseExpression toks = Done (node, rest) ->
                 (length rest <= length toks)%nat).
  { intros toks Hle. destruct (HPE toks) as [H1 H2]; [lia |].
    split; [exact H1 |]. intros node rest Hd. now apply (H2 node rest). }
  assert (Hnest : forall toks, (length toks <= length tokens1)%nat ->
            match ParseExpression toks with
            | Done (argument, tokens2) =>
                (length tokens2 <= length tokens1)%nat
            | Throws _ => True
            | OutOfFuel => False
            end).
  { intros toks Hle. destruct (Hnested toks Hle) as [H1 H2].
    destruct (ParseExpression toks) as [[argument tokens2] | |];
      [| exact I | contradiction].
    specialize (H2 argument tokens2 eq_refl). lia. }
  pose proof (Hnest tokens1 (Nat.le_refl _)) as Hfull.
  pose proof (Hnest (tail tokens1) (length_tail_le tokens1)) as Htail.
  destruct (Type_ token); cbn [TokenType.eqb TokenType.to_uint32 Z.eqb andb].
  - (* Number *)
    destruct (c_stod lib (Value token)).
    + split; [discriminate |]. intros node rest [= <- <-]. simpl. lia.
    + split; discriminate.
  - (* Operator *)
    split; [discriminate |]. intros node rest [= <- <-].
    split; [lia | discriminate].
  - (* Variable *)
    split; [discriminate |]. intros node rest [= <- <-]. simpl. lia.
  - (* Constant *)
    split; [discriminate |]. intros node rest [= <- <-]. simpl. lia.
  - (* Function *)
    destruct (Parser.not_next "(" tokens1).
    { split; [discriminate |]. intros node rest [= <- <-].
      split; [simpl; lia | discriminate]. }
    destruct (ParseExpression (tail tokens1)) as [[argument tokens2] | |];
      [| split; discriminate | contradiction].
    destruct (Parser.not_next ")" tokens2) eqn:Hnext.
    { split; [discriminate |]. intros node rest [= <- <-].
      split; [simpl; lia | discriminate]. }
    apply not_next_false in Hnext.
    split; [discriminate |]. intros node rest [= <- <-]. simpl. lia.
  - (* Parenthesis *)
    destruct (String.eqb (Value token) "(").
    + destruct (ParseExpression tokens1) as [[expression tokens2] | |];
        [| split; discriminate | contradiction].
      destruct (Parser.not_next ")" tokens2) eqn:Hnext.
      { split; [discriminate |]. intros node rest [= <- <-].
        split; [simpl; lia | discriminate]. }
      apply not_next_false in Hnext.
      split; [discriminate |]. intros node rest [= <- <-]. simpl. lia.
    + split; [discriminate |]. intros node rest [= <- <-].
      split; [lia | discriminate].
  - (* ModulusDelimiter *)
    destruct (ParseExpression tokens1) as [[argument tokens2] | |];
      [| split; discriminate | contradiction].
    destruct (Parser.not_next "|" tokens2) eqn:Hnext.
    { split; [discriminate |]. intros node rest [= <- <-].
      split; [simpl; lia | discriminate]. }
    apply not_next_false in Hnext.
    split; [discriminate |]. intros node rest [= <- <-]. simpl. lia.
  - (* Equals *)
    split; [discriminate |]. intros node rest [= <- <-].
    split; [lia | discriminate].
  - (* Unknown *)
    split; [discriminate |]. intros node rest [= <- <-].
    split; [lia | discriminate].
Qed.

Lemma ParseExpression_fuel_below fuel :
  below fuel (Parser.ParseExpression_fuel lib cfg fuel).
Proof.
  induction fuel as [| fuel IH]; [intros tokens H; lia |].
  cbn [Parser.ParseExpression_fuel].
  unfold Parser.ParseEquals, Parser.ParseAdditionSubtraction,
    Parser.ParseMultiplicationDivision, Parser.ParseExponentiation.
  repeat (apply level_below; [| lia]).
  now apply ParsePrimary_below.
Qed.

(** The budget of [ParseExpression] is never exhausted: the call returns
    a node or throws what [std::stod] throws. *)
Lemma ParseExpression_total (m_Tokens : list Token) :
  Parser.ParseExpression lib cfg m_Tokens <> OutOfFuel.
Proof.
  unfold Parser.ParseExpression.
  destruct (ParseExpression_fuel_below (S (length m_Tokens)) m_Tokens)
    as [Hne _]; [lia |].
  destruct (Parser.ParseExpression_fuel lib cfg (S (length m_Tokens))
              m_Tokens) as [[node rest] | what |];
    [discriminate | discriminate | contradiction].
Qed.

End ParserTotal.

(** ** Precedence and associativity *)

Section LeftAssociative.

Variable lib : LibC.
Variable cfg : Configuration.







(** A level passes the node of its operand on when the next token is
    not one of its symbols. *)
Lemma level_passes accepts operand build turns tokens node rest :
  is_ErrorNode node = false -> operand tokens = Done (node, rest) ->
  match rest with
  | [] => True
  | token :: _ => accepts (Value token) = false
  end ->
  Parser.level accepts operand build turns tokens = Done (node, rest).
Proof.
  intros Hnode Hop Hrest. unfold Parser.level. rewrite Hop, Hnode.
  destruct rest as [| token rest']; [now destruct turns |].
  destruct turns; cbn [Parser.loop]; now rewrite Hrest.
Qed.

Lemma level_at_end accepts operand build turns tokens node :
  is_ErrorNode node = false -> operand tokens = Done (node, []) ->
  Parser.level accepts operand build turns tokens = Done (node, []).
Proof. intros Hnode Hop. now apply level_passes. Qed.


End LeftAssociative.


(** ** The sign of a number *)

Section MinusSign.

Local Abbreviation functions := (Tokenizer.GetFunctionIDs Configuration_std).
Local Abbreviation constants := (Tokenizer.GetConstantNames Configuration_std).

(** No registered name starts with [-]. *)
Lemma match_names_minus prev rest :
  Regex.match_names functions prev ("-"%char :: rest) = None
  /\ Regex.match_names constants prev ("-"%char :: rest) = None.
Proof. split; now vm_compute. Qed.

Lemma match_number_minus_digit d rest :
  Regex.is_digit d = true ->
  exists m, Regex.match_number ("-"%char :: d :: rest)
            = Some ("-"%char :: d :: m).
Proof.
  intros Hd. unfold Regex.match_number.
  change (Ascii.eqb "-" "-") with true. cbn iota.
  cbn [Regex.span]. rewrite Hd.
  destruct (Regex.span Regex.is_digit rest) as [digits s2].
  destruct s2 as [| c t]; [now eexists |].
  destruct (Ascii.eqb c "."); [| now eexists].
  destruct (Regex.span Regex.is_digit t) as [[| f fraction] _];
    now eexists.
Qed.

(** Whatever precedes it, a [-] that a digit follows is matched by the
    number alternative, together with the digit. *)
Lemma match_token_minus_digit prev d rest :
  Regex.is_digit d = true ->
  exists m, Regex.match_token functions constants prev
              ("-"%char :: d :: rest)
            = Some ("-"%char :: d :: m).
Proof.
  intros Hd. unfold Regex.match_token.
  destruct (match_names_minus prev (d :: rest)) as [-> ->].
  destruct (match_number_minus_digit d rest Hd) as [m ->].
  now exists m.
Qed.

End MinusSign.

(** C4, where the code departs from it: [-3+x] gives the tokens
    [Number(-3)], [Operator(+)], [Variable(x)], but [a-3] gives
    [Variable(a)], [Number(-3)] and no operator.  The number pattern
    starts with an optional [-] and comes before the operator pattern, so
    a [-] that a digit follows is part of the number after a variable, a
    number or a closing parenthesis as well; [IsNegativeSign] is only
    asked about a [-] that no digit follows.  The parser then reads
    [a-3] as the variable [a] alone. *)
Theorem Tokenize_minus_sign :
  let Tokenize := Tokenizer.Tokenize Configuration_std in
  let token := mkToken in
  Tokenize "-3+x"
  = [token TokenType.Number "-3"; token TokenType.Operator "+";
     token TokenType.Variable_ "x"]
  /\ Tokenize "a-3"
     = [token TokenType.Variable_ "a"; token TokenType.Number "-3"]
  /\ Tokenize "(a)-3"
     = [token TokenType.Parenthesis "("; token TokenType.Variable_ "a";
        token TokenType.Parenthesis ")"; token TokenType.Number "-3"]
  /\ Tokenize "2-3"
     = [token TokenType.Number "2"; token TokenType.Number "-3"]
  /\ Tokenize "a - 3"
     = [token TokenType.Variable_ "a"; token TokenType.Operator "-";
        token TokenType.Number "3"]
  /\ (forall lib,
        Parser.ParseExpression lib Configuration_std (Tokenize "a-3")
        = Done (VariableNode "a"))
  /\ Forall (fun d => forall prev rest, exists m,
               Regex.match_token
                 (Tokenizer.GetFunctionIDs Configuration_std)
                 (Tokenizer.GetConstantNames Configuration_std)
                 prev ("-"%char :: d :: rest)
               = Some ("-"%char :: d :: m))
       (list_ascii_of_string "0123456789").
Proof.
  repeat (split; [now vm_compute |]).
  repeat constructor; intros prev rest;
    now apply match_token_minus_digit.
Qed.

(** ** The modulus *)

(** With its delimiters typed [ModulusDelimiter], [|-5|] is parsed to
    [abs] of the number. *)
Lemma ParseExpression_modulus (lib : LibC) :
  c_stod lib "-5" = Some (-5)%float ->
  Parser.ParseExpression lib Configuration_std
    [mkToken TokenType.ModulusDelimiter "|"; mkToken TokenType.Number "-5";
     mkToken TokenType.ModulusDelimiter "|"]
  = Done (FunctionNode ModulusFunction (NumberNode (-5))).
Proof.
  intros Hstod. unfold Parser.ParseExpression.
  set (bar := mkToken TokenType.ModulusDelimiter "|").
  set (number := mkToken TokenType.Number "-5").
  assert (Hinner : Parser.ParseExpression_fuel lib Configuration_std 3
                     [number; bar]
                   = Done (NumberNode (-5), [bar])).
  { change (Parser.ParseExpression_fuel lib Configuration_std 3)
      with (Parser.ParseEquals lib Configuration_std 2
              (Parser.ParseExpression_fuel lib Configuration_std 2)).
    unfold Parser.ParseEquals, Parser.ParseAdditionSubtraction,
      Parser.ParseMultiplicationDivision, Parser.ParseExponentiation.
    repeat (apply level_passes; [reflexivity | | reflexivity]).
    unfold Parser.ParsePrimary, number. cbn [Type_ Value].
    now rewrite Hstod. }
  change (Parser.ParseExpression_fuel lib Configuration_std
            (S (length [bar; number; bar])))
    with (Parser.ParseEquals lib Configuration_std 3
            (Parser.ParseExpression_fuel lib Configuration_std 3)).
  unfold Parser.ParseEquals, Parser.ParseAdditionSubtraction,
    Parser.ParseMultiplicationDivision, Parser.ParseExponentiation.
  repeat (rewrite level_at_end
            with (node := FunctionNode ModulusFunction (NumberNode (-5)));
          [reflexivity | reflexivity |]).
  unfold Parser.ParsePrimary at 1. cbn [bar Type_].
  now rewrite Hinner.
Qed.

(** C5, where the code departs from it: the tokenizer tests the
    parenthesis pattern twice and never the modulus pattern, so the [|]
    of [|-5|] are typed [Unknown] and the parser answers with an error;
    [Evaluate] on it is NaN and [Simplify] returns the error.  On the
    tree [abs(-5)] itself, [Evaluate] gives 5 and [Simplify] gives
    [Number(5)]. *)
Theorem modulus_is_not_tokenized (lib : LibC) (env : gmap string float) :
  let tokens := Tokenizer.Tokenize Configuration_std "|-5|" in
  let message := "unexpected token | (type = 8)" in
  tokens = [mkToken TokenType.Unknown "|"; mkToken TokenType.Number "-5";
            mkToken TokenType.Unknown "|"]
  /\ Parser.ParseExpression lib Configuration_std tokens
     = Done (ErrorNode message)
  /\ Evaluate lib env (ErrorNode message) = Some nan
  /\ Simplify Configuration_std (ErrorNode message) = ErrorNode message
  /\ Evaluate lib env (FunctionNode ModulusFunction (NumberNode (-5)))
     = Some 5%float
  /\ Simplify Configuration_std
       (FunctionNode ModulusFunction (NumberNode (-5)))
     = NumberNode 5.
Proof. repeat (split; [now vm_compute |]). now vm_compute. Qed.

(** * Further properties *)

Set Warnings "-clear-no-such-hyp".

(** ** The registry over its life *)

Lemma GetFunction_AddFunction_keeps T id id' f cfg :
  GetFunction cfg id' = Some f ->
  GetFunction (AddFunction T id cfg) id' = Some f.
Proof.
  intros H. destruct (decide (id = id')) as [-> | Hne].
  - rewrite AddFunction_registered; [exact H | rewrite H; eauto].
  - now rewrite GetFunction_AddFunction_ne.
Qed.

(** X1: an entry registered before [Init] survives it: [Init] adds its
    classes with [AddFunction], which leaves a taken id alone, so a class
    the user put under a standard name is the one dispatched afterwards. *)
Theorem Init_keeps_registered (cfg : Configuration) (id : string)
    (f : Function) :
  GetFunction cfg id = Some f -> GetFunction (Init cfg) id = Some f.
Proof.
  intros H. unfold Init. destruct (s_Init cfg); [exact H |].
  rewrite GetFunction_set_Init, !GetFunction_AddConstant.
  now repeat apply GetFunction_AddFunction_keeps.
Qed.

Lemma Init_keeps_registered_witness :
  GetFunction (Init (AddFunction CosineFunction "sin" Configuration_start))
    "sin" = Some CosineFunction.
Proof. apply Init_keeps_registered. now vm_compute. Defined.

Lemma s_Functions_AddFunction_ext T id cfg cfg' :
  s_Functions cfg = s_Functions cfg' ->
  s_Functions (AddFunction T id cfg) = s_Functions (AddFunction T id cfg').
Proof.
  intros E. unfold AddFunction. rewrite E.
  now destruct (s_Functions cfg' !! id).
Qed.

(** X2: whatever the registry held, [Shutdown] followed by [Init] gives
    exactly the function table of a fresh [Init] (so [exp] is missing
    again), while the constants survive [Shutdown]: the table of
    constants is the old one with [e] and [pi] set to their standard
    values. *)
Theorem Shutdown_then_Init (cfg : Configuration) :
  s_Functions (Init (Shutdown cfg)) = s_Functions Configuration_std
  /\ GetFunction (Init (Shutdown cfg)) "exp" = None
  /\ s_Constants (Init (Shutdown cfg))
     = <["pi" := Double.pi]> (<["e" := Double.e]> (s_Constants cfg))
  /\ (forall id, GetFunction (Shutdown cfg) id = None)
  /\ (forall name,
        GetConstantValue (Shutdown cfg) name = GetConstantValue cfg name).
Proof.
  assert (F : s_Functions (Init (Shutdown cfg))
              = s_Functions Configuration_std).
  { unfold Configuration_std, Init.
    change (s_Init (Shutdown cfg)) with false.
    change (s_Init Configuration_start) with false. cbv iota.
    unfold set_Init, AddConstant. cbn [s_Functions].
    repeat apply s_Functions_AddFunction_ext. reflexivity. }
  split; [exact F |]. split.
  { unfold GetFunction. rewrite F. now vm_compute. }
  split.
  { unfold Init. change (s_Init (Shutdown cfg)) with false. cbv iota.
    unfold set_Init, AddConstant. cbn [s_Constants].
    now rewrite !s_Constants_AddFunction. }
  split; [intros id; apply lookup_empty | reflexivity].
Qed.

(** ** When the symbolic operations answer with an error *)

Lemma is_ErrorNode_or_else blk rest :
  match blk with Some r => is_ErrorNode r = false | None => True end ->
  is_ErrorNode rest = false ->
  is_ErrorNode (or_else blk rest) = false.
Proof. now destruct blk. Qed.

Lemma OperatorNode_Differentiate_known cfg D op l r :
  is_ErrorNode (D l) = false -> is_ErrorNode (D r) = false ->
  is_ErrorNode (OperatorNode_Differentiate cfg D op l r)
  = negb (known_operator op).
Proof.
  intros Hl Hr. unfold OperatorNode_Differentiate, known_operator.
  rewrite Hl, Hr.
  destruct (op =? "+")%string; [reflexivity |].
  destruct (op =? "-")%string; [reflexivity |].
  destruct (op =? "*")%string; [reflexivity |].
  destruct (op =? "/")%string.
  { destruct l; try reflexivity; destruct r; reflexivity. }
  destruct (op =? "^")%string; [| reflexivity].
  cbn [orb negb]. unfold or_else.
  destruct l as [| lv | | | | | | |]; try reflexivity;
    destruct r as [| rv | | | | | | |]; try reflexivity.
  destruct (rv =? 1)%float; [reflexivity |].
  destruct (rv =? 0)%float; reflexivity.
Qed.

(** X3: [Differentiate] returns an [ErrorNode] exactly on the trees of
    [Differentiate_fails]: an error or a function node without function
    at the root, an error as the argument of a function node, or, through
    operator and equation nodes, a child that fails or an operator symbol
    other than [+ - * / ^].  On every other tree the result is not an
    error, for every registry and every name. *)
Theorem Differentiate_error_iff (cfg : Configuration) (respectTo : string)
    (node : AstNode) :
  is_ErrorNode (Differentiate cfg respectTo node) = Differentiate_fails node.
Proof.
  induction node as [| | | | op l IHl r IHr | l IHl r IHr | | f a IHa |];
    cbn [Differentiate Differentiate_fails]; try reflexivity.
  - now destruct (_ =? _)%string.
  - destruct (Differentiate_fails l).
    + unfold OperatorNode_Differentiate. now rewrite IHl.
    + destruct (Differentiate_fails r).
      * unfold OperatorNode_Differentiate. now rewrite IHl, IHr.
      * now apply OperatorNode_Differentiate_known.
  - rewrite IHl. destruct (Differentiate_fails l); [exact IHl |].
    rewrite IHr. destruct (Differentiate_fails r); [exact IHr |].
    reflexivity.
  - now destruct (_ =? _)%string.
  - destruct (is_ErrorNode a) eqn:Ea; [exact Ea |].
    now destruct f.
Qed.

Lemma is_ErrorNode_new_ConstantNode cfg name :
  is_ErrorNode (new_ConstantNode cfg name) = false.
Proof. reflexivity. Qed.

Lemma Function_Simplify_not_error cfg S f a :
  is_ErrorNode (Function_Simplify cfg S f a) = false.
Proof.
  unfold Function_Simplify, or_else, or_try.
  pose proof (is_ErrorNode_new_FunctionNode cfg (GetExpressionID f) (S a))
    as Hkeep.
  destruct f; try exact Hkeep;
    destruct (S a) as [| v | | v name | | | | |]; cbn [as_NumberNode];
    try exact Hkeep;
    repeat match goal with
           | |- context [if ?c then _ else _] => destruct c
           end;
    first [reflexivity | exact Hkeep].
Qed.

Lemma expand_product_not_error lo ro a b c d node :
  expand_product lo ro a b c d = Some node -> is_ErrorNode node = false.
Proof.
  unfold expand_product.
  repeat match goal with
         | |- context [if ?c then _ else _] => destruct c
         end; now intros [= <-].
Qed.

Lemma OperatorNode_Simplify_rules_not_error op sl sr :
  is_ErrorNode sl = false -> is_ErrorNode sr = false ->
  is_ErrorNode (OperatorNode_Simplify_rules op sl sr) = false.
Proof.
  intros Hl Hr. unfold OperatorNode_Simplify_rules, distribute.
  apply is_ErrorNode_or_else; [| reflexivity].
  destruct (op =? "+")%string;
    [| destruct (op =? "-")%string;
       [| destruct (op =? "*")%string;
          [| destruct (op =? "/")%string;
             [| destruct (op =? "^")%string; [| exact I]]]]].
  all: unfold or_try.
  all: destruct sl as [| l | | lv ln | lo ll lr | | | |];
    try discriminate Hl;
    destruct sr as [| r | | rv rn | ro rl rr | | | |];
    try discriminate Hr; cbn [as_NumberNode];
    repeat match goal with
           | |- context [if ?c then _ else _] => destruct c
           end;
    try exact I; try reflexivity.
  all: destruct (expand_product lo ro ll lr rl rr) eqn:E;
    [now apply expand_product_not_error in E | exact I].
Qed.

(** X4: [Simplify] returns an [ErrorNode] exactly on the trees of
    [exposes_Error]: none of its rewrite rules invents an error, and an
    error below a function node other than its argument itself is never
    reported. *)
Theorem Simplify_error_iff (cfg : Configuration) (node : AstNode) :
  is_ErrorNode (Simplify cfg node) = exposes_Error node.
Proof.
  induction node as [| | | | op l IHl r IHr | l IHl r IHr | | f a IHa |];
    cbn [Simplify exposes_Error]; try reflexivity.
  - rewrite IHl. destruct (exposes_Error l); [exact IHl |].
    rewrite IHr. destruct (exposes_Error r); [exact IHr |].
    now apply OperatorNode_Simplify_rules_not_error.
  - rewrite IHl. destruct (exposes_Error l); [exact IHl |].
    rewrite IHr. destruct (exposes_Error r); [exact IHr |].
    reflexivity.
  - destruct (is_ErrorNode a) eqn:Ea; [exact Ea |].
    apply Function_Simplify_not_error.
Qed.

(** ** Function nodes stay resolved *)

Lemma Configuration_std_standard : standard_registry Configuration_std.
Proof. intros f Hf. destruct f; solve [now vm_compute | contradiction]. Qed.

Lemma new_FunctionNode_dispatches cfg f a :
  dispatches cfg f ->
  new_FunctionNode cfg (GetExpressionID f) a = FunctionNode f a.
Proof. unfold dispatches, new_FunctionNode. now intros ->. Qed.

Section Resolved.

Variable cfg : Configuration.
Hypothesis Hstd : standard_registry cfg.

Lemma registered_only_Fn f a :
  f <> ExponentialFunction -> registered_only a = true ->
  registered_only (new_FunctionNode cfg (GetExpressionID f) a) = true.
Proof.
  intros Hf Ha. rewrite new_FunctionNode_dispatches by now apply Hstd.
  now destruct f.
Qed.

(** The function nodes the rules build, by the name in the source. *)
Ltac resolve_Fn :=
  repeat match goal with
  | |- context [new_FunctionNode cfg ?id ?a] =>
      first
        [ change (new_FunctionNode cfg id a)
            with (new_FunctionNode cfg (GetExpressionID SineFunction) a)
        | change (new_FunctionNode cfg id a)
            with (new_FunctionNode cfg (GetExpressionID CosineFunction) a)
        | change (new_FunctionNode cfg id a)
            with (new_FunctionNode cfg (GetExpressionID TangentFunction) a)
        | change (new_FunctionNode cfg id a)
            with (new_FunctionNode cfg (GetExpressionID CotangentFunction) a)
        | change (new_FunctionNode cfg id a)
            with (new_FunctionNode cfg (GetExpressionID SecantFunction) a)
        | change (new_FunctionNode cfg id a)
            with (new_FunctionNode cfg (GetExpressionID CosecantFunction) a)
        | change (new_FunctionNode cfg id a)
            with (new_FunctionNode cfg
                    (GetExpressionID HyperbolicSineFunction) a)
        | change (new_FunctionNode cfg id a)
            with (new_FunctionNode cfg
                    (GetExpressionID HyperbolicCosineFunction) a)
        | change (new_FunctionNode cfg id a)
            with (new_FunctionNode cfg
                    (GetExpressionID HyperbolicTangentFunction) a)
        | change (new_FunctionNode cfg id a)
            with (new_FunctionNode cfg
                    (GetExpressionID HyperbolicCotangentFunction) a)
        | change (new_FunctionNode cfg id a)
            with (new_FunctionNode cfg
                    (GetExpressionID HyperbolicSecantFunction) a)
        | change (new_FunctionNode cfg id a)
            with (new_FunctionNode cfg
                    (GetExpressionID HyperbolicCosecantFunction) a)
        | change (new_FunctionNode cfg id a)
            with (new_FunctionNode cfg
                    (GetExpressionID Base10LogarithmFunction) a)
        | change (new_FunctionNode cfg id a)
            with (new_FunctionNode cfg
                    (GetExpressionID NaturalLogarithmFunction) a)
        | change (new_FunctionNode cfg id a)
            with (new_FunctionNode cfg
                    (GetExpressionID SquareRootFunction) a)
        | change (new_FunctionNode cfg id a)
            with (new_FunctionNode cfg (GetExpressionID ModulusFunction) a) ];
      rewrite new_FunctionNode_dispatches by (apply Hstd; discriminate)
  end.

Lemma Function_Differentiate_registered D f a :
  f <> ExponentialFunction ->
  registered_only a = true -> registered_only (D a) = true ->
  registered_only (Function_Differentiate cfg D f a) = true.
Proof.
  intros Hf Ha HDa.
  destruct f; try contradiction; cbn [Function_Differentiate];
    resolve_Fn; cbn [registered_only]; now rewrite ?Ha, ?HDa.
Qed.

Lemma OperatorNode_Differentiate_registered D op l r :
  registered_only l = true -> registered_only r = true ->
  registered_only (D l) = true -> registered_only (D r) = true ->
  registered_only (OperatorNode_Differentiate cfg D op l r) = true.
Proof.
  intros Hl Hr HDl HDr. unfold OperatorNode_Differentiate, or_else, or_try.
  repeat match goal with
         | |- context [if ?c then _ else _] => destruct c
         end; try assumption; try reflexivity;
    try (cbn [registered_only]; now rewrite ?Hl, ?Hr, ?HDl, ?HDr).
  - destruct l; try discriminate Hl; destruct r; try discriminate Hr;
      cbn [registered_only new_ConstantNode] in *;
      now rewrite ?Hl, ?Hr, ?HDl, ?HDr.
  - destruct l; try discriminate Hl; destruct r; try discriminate Hr;
      resolve_Fn; cbn [registered_only new_ConstantNode] in *;
      repeat match goal with
             | |- context [if ?c then _ else _] => destruct c
             end;
      cbn [registered_only]; now rewrite ?Hl, ?Hr, ?HDl, ?HDr.
Qed.

Lemma Differentiate_registered respectTo node :
  registered_only node = true ->
  registered_only (Differentiate cfg respectTo node) = true.
Proof.
  induction node as [| | | | op l IHl r IHr | l IHl r IHr | | f a IHa |];
    cbn [Differentiate registered_only]; try reflexivity.
  - now destruct (_ =? _)%string.
  - rewrite andb_true_iff. intros [Hl Hr].
    now apply OperatorNode_Differentiate_registered; auto.
  - rewrite andb_true_iff. intros [Hl Hr].
    specialize (IHl Hl). specialize (IHr Hr).
    repeat match goal with
           | |- context [if ?c then _ else _] => destruct c
           end; try assumption.
    cbn [registered_only]. now rewrite IHl, IHr.
  - now destruct (_ =? _)%string.
  - intros H. destruct (is_ErrorNode a) eqn:Ea; [now destruct a |].
    assert (Hf : f <> ExponentialFunction) by (intros ->; discriminate H).
    assert (Ha : registered_only a = true) by now destruct f.
    now apply Function_Differentiate_registered; auto.
Qed.

Lemma Function_Simplify_registered S f a :
  f <> ExponentialFunction -> registered_only (S a) = true ->
  registered_only (Function_Simplify cfg S f a) = true.
Proof.
  intros Hf HSa. unfold Function_Simplify, or_else, or_try.
  pose proof (registered_only_Fn f (S a) Hf HSa) as Hkeep.
  destruct f; try contradiction; try exact Hkeep;
    destruct (S a) as [| v | | v name | | | | |]; cbn [as_NumberNode];
    try exact Hkeep;
    repeat match goal with
           | |- context [if ?c then _ else _] => destruct c
           end;
    first [reflexivity | exact Hkeep].
Qed.

Lemma expand_product_registered lo ro a b c d node :
  registered_only a = true -> registered_only b = true ->
  registered_only c = true -> registered_only d = true ->
  expand_product lo ro a b c d = Some node ->
  registered_only node = true.
Proof.
  intros Ha Hb Hc Hd. unfold expand_product.
  repeat match goal with
         | |- context [if ?c then _ else _] => destruct c
         end; intros [= <-]; cbn [registered_only];
    now rewrite Ha, Hb, Hc, Hd.
Qed.

Lemma OperatorNode_Simplify_rules_registered op sl sr :
  registered_only sl = true -> registered_only sr = true ->
  registered_only (OperatorNode_Simplify_rules op sl sr) = true.
Proof.
  intros Hl Hr. unfold OperatorNode_Simplify_rules, distribute.
  assert (Hkeep : registered_only (OperatorNode op sl sr) = true)
    by (cbn [registered_only]; now rewrite Hl, Hr).
  unfold or_else, or_try.
  destruct (op =? "+")%string;
    [| destruct (op =? "-")%string;
       [| destruct (op =? "*")%string;
          [| destruct (op =? "/")%string;
             [| destruct (op =? "^")%string; [| exact Hkeep]]]]].
  all: destruct sl as [| l | | lv ln | lo ll lr | | | lf la |];
    try discriminate Hl;
    destruct sr as [| r | | rv rn | ro rl rr | | | rf ra |];
    try discriminate Hr; cbn [as_NumberNode];
    repeat match goal with
           | |- context [if ?c then _ else _] => destruct c
           end;
    try exact Hkeep; try reflexivity; try assumption.
  all: cbn [registered_only] in *;
    repeat match goal with
           | H : _ && _ = true |- _ => apply andb_true_iff in H; destruct H
           end.
  all: try (destruct (expand_product lo ro ll lr rl rr) eqn:E;
            [now apply expand_product_registered in E
            | cbn [registered_only]]).
  all: repeat match goal with
              | H : ?x = true |- context [?x] => rewrite H
              end; try reflexivity.
Qed.

Lemma Simplify_registered node :
  registered_only node = true -> registered_only (Simplify cfg node) = true.
Proof.
  induction node as [| | | | op l IHl r IHr | l IHl r IHr | | f a IHa |];
    cbn [Simplify registered_only]; try reflexivity.
  - rewrite andb_true_iff. intros [Hl Hr].
    specialize (IHl Hl). specialize (IHr Hr).
    destruct (is_ErrorNode _); [assumption |].
    destruct (is_ErrorNode _); [assumption |].
    now apply OperatorNode_Simplify_rules_registered.
  - rewrite andb_true_iff. intros [Hl Hr].
    specialize (IHl Hl). specialize (IHr Hr).
    destruct (is_ErrorNode _); [assumption |].
    destruct (is_ErrorNode _); [assumption |].
    cbn [registered_only]. now rewrite IHl, IHr.
  - intros H. destruct (is_ErrorNode a) eqn:Ea; [now destruct a |].
    assert (Hf : f <> ExponentialFunction) by (intros ->; discriminate H).
    assert (Ha : registered_only a = true) by now destruct f.
    now apply Function_Simplify_registered; auto.
Qed.

End Resolved.

(** X5: in a registry that dispatches each standard id to its class (as
    after [Init]), a tree whose function nodes are all resolved and none
    of the class [ExponentialFunction] keeps that property under
    [Differentiate] and under [Simplify]: the function nodes the rules
    build ([cos] for the derivative of [sin], [ln] for a power, ...) are
    all found, so no node "Could not find function" appears. *)
Theorem symbolic_results_resolved (cfg : Configuration) (respectTo : string)
    (node : AstNode) :
  standard_registry cfg -> registered_only node = true ->
  registered_only (Differentiate cfg respectTo node) = true
  /\ registered_only (Simplify cfg node) = true.
Proof.
  intros Hstd Hnode. split.
  - now apply Differentiate_registered.
  - now apply Simplify_registered.
Qed.

Lemma symbolic_results_resolved_witness :
  registered_only
    (Differentiate Configuration_std "x"
       (FunctionNode TangentFunction (VariableNode "x"))) = true
  /\ registered_only
       (Simplify Configuration_std
          (FunctionNode TangentFunction (VariableNode "x"))) = true.
Proof.
  apply symbolic_results_resolved;
    [exact Configuration_std_standard | reflexivity].
Defined.

(** The derivative of [exp] is the one rule that builds a node [Init]
    has no class for. *)
Lemma exp_derivative_unresolved :
  registered_only
    (Differentiate Configuration_std "x"
       (FunctionNode ExponentialFunction (VariableNode "x"))) = false.
Proof. now vm_compute. Qed.

(** ** Repeated differentiation of a variable *)

(** X6: differentiating the variable [u] [n] times with respect to
    another name [v] gives the differential node of order [n], for every
    [n] from 1 up to [INT_MAX]; with respect to [u] itself the first
    derivative is [Number(1)] and every later one [Number(0)]. *)
Theorem iterated_derivative_of_variable (cfg : Configuration)
    (u v : string) (n : nat) :
  u <> v -> Z.of_nat (S n) <= Double.INT_MAX ->
  Nat.iter (S n) (Differentiate cfg v) (VariableNode u)
  = DifferentialNode u v (Z.of_nat (S n))
  /\ Nat.iter (S (S n)) (Differentiate cfg u) (VariableNode u)
     = NumberNode 0.
Proof.
  intros Hne Hn. split.
  - induction n as [| n IH].
    + cbn. destruct (String.eqb_spec u v); [contradiction | reflexivity].
    + rewrite Nat.iter_succ, IH by lia.
      cbn [Differentiate]. rewrite String.eqb_refl, int_add_1.
      * f_equal. lia.
      * unfold Double.INT_MIN, Double.INT_MAX in *. lia.
  - clear Hn. induction n as [| n IH].
    + cbn. now rewrite String.eqb_refl.
    + rewrite Nat.iter_succ, IH. reflexivity.
Qed.

Lemma iterated_derivative_of_variable_witness :
  Nat.iter 3 (Differentiate Configuration_std "t") (VariableNode "y")
  = DifferentialNode "y" "t" 3.
Proof.
  apply (iterated_derivative_of_variable Configuration_std "y" "t" 2).
  - discriminate.
  - vm_compute. discriminate.
Defined.

(** ** Evaluation *)

Section NaN.

Local Open Scope float_scope.

Lemma Prim2SF_nan : Prim2SF nan = S754_nan.
Proof. reflexivity. Qed.

Lemma add_nan_l y : nan + y = nan.
Proof. apply Prim2SF_inj. now rewrite add_spec, Prim2SF_nan. Qed.

Lemma add_nan_r x : x + nan = nan.
Proof.
  apply Prim2SF_inj. rewrite add_spec, Prim2SF_nan.
  now destruct (Prim2SF x).
Qed.

Lemma sub_nan_l y : nan - y = nan.
Proof. apply Prim2SF_inj. now rewrite sub_spec, Prim2SF_nan. Qed.

Lemma sub_nan_r x : x - nan = nan.
Proof.
  apply Prim2SF_inj. rewrite sub_spec, Prim2SF_nan.
  now destruct (Prim2SF x).
Qed.

Lemma mul_nan_l y : nan * y = nan.
Proof. apply Prim2SF_inj. now rewrite mul_spec, Prim2SF_nan. Qed.

Lemma mul_nan_r x : x * nan = nan.
Proof.
  apply Prim2SF_inj. rewrite mul_spec, Prim2SF_nan.
  now destruct (Prim2SF x).
Qed.

Lemma div_nan_l y : nan / y = nan.
Proof. apply Prim2SF_inj. now rewrite div_spec, Prim2SF_nan. Qed.

Lemma div_nan_r x : x / nan = nan.
Proof.
  apply Prim2SF_inj. rewrite div_spec, Prim2SF_nan.
  now destruct (Prim2SF x).
Qed.

End NaN.

Lemma Evaluate_None_calls_null (lib : LibC) (env : gmap string float)
    (node : AstNode) :
  Evaluate lib env node = None <-> calls_null node = true.
Proof.
  induction node as [| | | | op l IHl r IHr | l IHl r IHr | | f a IHa |];
    cbn [Evaluate calls_null]; try (split; discriminate).
  - destruct (env !! m_Name); split; discriminate.
  - rewrite orb_true_iff, <- IHl, <- IHr.
    destruct (Evaluate lib env l); [| tauto].
    destruct (Evaluate lib env r); [| tauto].
    split; [discriminate | intros [H | H]; discriminate H].
  - rewrite <- IHa. destruct (Evaluate lib env a); [| tauto].
    split; discriminate.
  - tauto.
Qed.

(** X7: [Evaluate] fails to return exactly when its descent, which goes
    through operator and function nodes only, meets a function node
    without function, and this does not depend on the environment or on
    the C library; on every other tree it returns a double (an unbound
    variable, an error, an equation or a differential is a NaN, not a
    failure). *)
Theorem Evaluate_None_iff (lib : LibC) (env : gmap string float)
    (node : AstNode) :
  (Evaluate lib env node = None <-> calls_null node = true)
  /\ (calls_null node = false ->
      exists value, Evaluate lib env node = Some value)
  /\ forall lib' env',
       Evaluate lib env node = None <-> Evaluate lib' env' node = None.
Proof.
  pose proof (Evaluate_None_calls_null lib env node) as H.
  split; [exact H | split].
  - intros Hn. destruct (Evaluate lib env node) as [value |];
      [eauto | ].
    destruct H as [H _]. specialize (H eq_refl). congruence.
  - intros lib' env'.
    now rewrite H, (Evaluate_None_calls_null lib' env' node).
Qed.

Lemma Evaluate_None_iff_witness :
  exists value,
    Evaluate LibC_none ∅
      (OperatorNode "+" (VariableNode "x") (ErrorNode "m"))
    = Some value.
Proof.
  apply (proj1 (proj2 (Evaluate_None_iff LibC_none ∅
                         (OperatorNode "+" (VariableNode "x")
                            (ErrorNode "m"))))).
  reflexivity.
Defined.

(** X8: [Evaluate] reads the environment only at the names of the
    variable nodes of the tree: two environments that agree on them give
    the same result. *)
Theorem Evaluate_agree (lib : LibC) (env env' : gmap string float)
    (node : AstNode) :
  (forall name, name ∈ variables node -> env !! name = env' !! name) ->
  Evaluate lib env node = Evaluate lib env' node.
Proof.
  induction node as [| | | | op l IHl r IHr | l IHl r IHr | | f a IHa |];
    cbn [Evaluate variables]; intros H; try reflexivity.
  - rewrite (H m_Name) by set_solver. reflexivity.
  - rewrite IHl, IHr by (intros; apply H; set_solver).
    reflexivity.
  - now rewrite IHa.
Qed.

Lemma Evaluate_agree_witness :
  Evaluate LibC_none {[ "x" := 2%float ]}
    (OperatorNode "*" (VariableNode "x") (NumberNode 3))
  = Evaluate LibC_none (<[ "y" := 5%float ]> {[ "x" := 2%float ]})
      (OperatorNode "*" (VariableNode "x") (NumberNode 3)).
Proof.
  apply Evaluate_agree. intros name Hn.
  assert (name = "x") as -> by (cbn [variables] in Hn; set_solver).
  now vm_compute.
Defined.

(** X9: NaN reaches the result through IEEE-754 arithmetic: when an
    error, an equation, a differential, an unbound variable or an
    unknown operator symbol lies below [+ - * /] and [sqrt] only, and no
    function pointer is null, [Evaluate] returns NaN.  ([pow], [abs] and
    the other functions are not covered: [pow(NaN, 0)] is 1, and which
    [abs] the source calls depends on the headers in scope.) *)
Theorem Evaluate_carries_NaN (lib : LibC) (env : gmap string float)
    (node : AstNode) :
  carries_NaN env node = true -> calls_null node = false ->
  Evaluate lib env node = Some nan.
Proof.
  induction node as [| | | | op l IHl r IHr | l IHl r IHr | | f a IHa |];
    cbn [Evaluate calls_null carries_NaN]; try reflexivity;
    try discriminate.
  - now destruct (env !! m_Name).
  - intros Hc Hn. apply orb_false_iff in Hn as [Hnl Hnr].
    destruct (Evaluate lib env l) as [lv |] eqn:El;
      [| apply Evaluate_None_calls_null in El; congruence].
    destruct (Evaluate lib env r) as [rv |] eqn:Er;
      [| apply Evaluate_None_calls_null in Er; congruence].
    unfold is_arithmetic in Hc.
    destruct (op =? "+")%string; cbn [orb] in Hc.
    { apply orb_true_iff in Hc as [Hc | Hc];
        [injection (IHl Hc Hnl) as -> | injection (IHr Hc Hnr) as ->];
        now rewrite ?add_nan_l, ?add_nan_r. }
    destruct (op =? "-")%string; cbn [orb] in Hc.
    { apply orb_true_iff in Hc as [Hc | Hc];
        [injection (IHl Hc Hnl) as -> | injection (IHr Hc Hnr) as ->];
        now rewrite ?sub_nan_l, ?sub_nan_r. }
    destruct (op =? "*")%string; cbn [orb] in Hc.
    { apply orb_true_iff in Hc as [Hc | Hc];
        [injection (IHl Hc Hnl) as -> | injection (IHr Hc Hnr) as ->];
        now rewrite ?mul_nan_l, ?mul_nan_r. }
    destruct (op =? "/")%string; cbn [orb] in Hc.
    { apply orb_true_iff in Hc as [Hc | Hc];
        [injection (IHl Hc Hnl) as -> | injection (IHr Hc Hnr) as ->];
        now rewrite ?div_nan_l, ?div_nan_r. }
    destruct (op =? "^")%string; [discriminate Hc | reflexivity].
  - intros Hc Hn.
    destruct f; try discriminate Hc; now rewrite (IHa Hc Hn).
Qed.

Lemma Evaluate_carries_NaN_witness :
  Evaluate LibC_none ∅
    (OperatorNode "+" (NumberNode 1)
       (FunctionNode SquareRootFunction
          (OperatorNode "*" (VariableNode "x") (ErrorNode "m"))))
  = Some nan.
Proof. apply Evaluate_carries_NaN; reflexivity. Defined.

(** ** The variables of a result *)

Lemma variables_new_FunctionNode cfg id a :
  variables (new_FunctionNode cfg id a) ⊆ variables a.
Proof.
  unfold new_FunctionNode. destruct (GetFunction cfg id); cbn; set_solver.
Qed.

Lemma variables_new_ConstantNode cfg name :
  variables (new_ConstantNode cfg name) = ∅.
Proof. reflexivity. Qed.

Lemma variables_Function_Simplify cfg S f a :
  variables (Function_Simplify cfg S f a) ⊆ variables (S a).
Proof.
  unfold Function_Simplify, or_else, or_try.
  pose proof (variables_new_FunctionNode cfg (GetExpressionID f) (S a))
    as Hkeep.
  destruct f; try exact Hkeep;
    destruct (S a) as [| v | | v name | | | | |]; cbn [as_NumberNode];
    try exact Hkeep;
    repeat match goal with
           | |- context [if ?c then _ else _] => destruct c
           end;
    first [exact Hkeep | cbn; set_solver].
Qed.

Lemma variables_expand_product lo ro a b c d node :
  expand_product lo ro a b c d = Some node ->
  variables node ⊆ variables a ∪ variables b ∪ variables c ∪ variables d.
Proof.
  unfold expand_product.
  repeat match goal with
         | |- context [if ?c then _ else _] => destruct c
         end; intros [= <-]; cbn [variables]; set_solver.
Qed.

Lemma variables_OperatorNode_Simplify_rules op sl sr :
  variables (OperatorNode_Simplify_rules op sl sr)
  ⊆ variables sl ∪ variables sr.
Proof.
  unfold OperatorNode_Simplify_rules, distribute, or_else, or_try.
  destruct (op =? "+")%string;
    [| destruct (op =? "-")%string;
       [| destruct (op =? "*")%string;
          [| destruct (op =? "/")%string;
             [| destruct (op =? "^")%string;
                [| cbn [variables]; set_solver]]]]].
  all: destruct sl as [| l | | lv ln | lo ll lr | | | lf la |];
    destruct sr as [| r | | rv rn | ro rl rr | | | rf ra |];
    cbn [as_NumberNode];
    repeat match goal with
           | |- context [if ?c then _ else _] => destruct c
           end;
    try (cbn [variables]; set_solver).
  all: destruct (expand_product lo ro ll lr rl rr) eqn:E;
    [apply variables_expand_product in E | ];
    cbn [variables] in *; set_solver.
Qed.

Lemma variables_Function_Differentiate cfg D f a :
  variables (Function_Differentiate cfg D f a)
  ⊆ variables a ∪ variables (D a).
Proof.
  destruct f; cbn [Function_Differentiate variables];
    repeat match goal with
           | |- context [new_FunctionNode cfg ?id ?x] =>
               let H := fresh in
               pose proof (variables_new_FunctionNode cfg id x) as H;
               generalize dependent (new_FunctionNode cfg id x); intros
           end;
    cbn [variables] in *; set_solver.
Qed.

Lemma variables_OperatorNode_Differentiate cfg D op l r :
  variables (OperatorNode_Differentiate cfg D op l r)
  ⊆ variables l ∪ variables r ∪ variables (D l) ∪ variables (D r).
Proof.
  unfold OperatorNode_Differentiate, or_else, or_try.
  repeat match goal with
         | |- context [if ?c then _ else _] => destruct c
         end; try (cbn [variables]; set_solver).
  - destruct l; destruct r; cbn [variables new_ConstantNode]; set_solver.
  - destruct l; destruct r;
      repeat match goal with
             | |- context [if ?c then _ else _] => destruct c
             end;
      repeat match goal with
             | |- context [new_FunctionNode cfg ?id ?x] =>
                 let H := fresh in
                 pose proof (variables_new_FunctionNode cfg id x) as H;
                 generalize dependent (new_FunctionNode cfg id x); intros
             end;
      cbn [variables new_ConstantNode] in *; set_solver.
Qed.

Lemma variables_Simplify cfg node :
  variables (Simplify cfg node) ⊆ variables node.
Proof.
  induction node as [| | | | op l IHl r IHr | l IHl r IHr | | f a IHa |];
    cbn [Simplify]; try (cbn [variables]; set_solver).
  - repeat match goal with
           | |- context [if ?c then _ else _] => destruct c
           end; try (cbn [variables]; set_solver).
    pose proof (variables_OperatorNode_Simplify_rules op
                  (Simplify cfg l) (Simplify cfg r)).
    cbn [variables]. set_solver.
  - repeat match goal with
           | |- context [if ?c then _ else _] => destruct c
           end; cbn [variables]; set_solver.
  - destruct (is_ErrorNode a); [cbn [variables]; set_solver |].
    pose proof (variables_Function_Simplify cfg (Simplify cfg) f a).
    cbn [variables]. set_solver.
Qed.

Lemma variables_Differentiate cfg respectTo node :
  variables (Differentiate cfg respectTo node) ⊆ variables node.
Proof.
  induction node as [| | | | op l IHl r IHr | l IHl r IHr | | f a IHa |];
    cbn [Differentiate]; try (cbn [variables]; set_solver).
  - destruct (_ =? _)%string; cbn [variables]; set_solver.
  - pose proof (variables_OperatorNode_Differentiate cfg
                  (Differentiate cfg respectTo) op l r).
    cbn [variables]. set_solver.
  - repeat match goal with
           | |- context [if ?c then _ else _] => destruct c
           end; cbn [variables]; set_solver.
  - destruct (_ =? _)%string; cbn [variables]; set_solver.
  - destruct (is_ErrorNode a); [cbn [variables]; set_solver |].
    pose proof (variables_Function_Differentiate cfg
                  (Differentiate cfg respectTo) f a).
    cbn [variables]. set_solver.
Qed.

(** X10: [Simplify] and [Differentiate] never bring in a variable: the
    variable nodes of the result are among those of the input, for
    every registry and every variable of differentiation. *)
Theorem results_have_no_new_variables (cfg : Configuration)
    (respectTo : string) (node : AstNode) :
  variables (Simplify cfg node) ⊆ variables node
  /\ variables (Differentiate cfg respectTo node) ⊆ variables node.
Proof.
  split; [apply variables_Simplify | apply variables_Differentiate].
Qed.

(** ** The identities of [Simplify] *)

(** X11: for a subtree [T] whose simplified form [s] is neither an error
    nor a number, [Simplify] removes the neutral operand, [T + 0],
    [0 + T], [T - 0], [T * 1], [1 * T] and [T / 1] give [s], and
    collapses on the absorbing one, [T * 0], [0 * T] and [0 / T] give
    [Number(0)]; [0 - T] becomes [(-1) * s]. *)
Theorem Simplify_identities (cfg : Configuration) (T : AstNode) :
  is_ErrorNode (Simplify cfg T) = false ->
  as_NumberNode (Simplify cfg T) = None ->
  let s := Simplify cfg T in
  let S := Simplify cfg in
  let zero := NumberNode 0 in
  let one := NumberNode 1 in
  S (OperatorNode "+" T zero) = s
  /\ S (OperatorNode "+" zero T) = s
  /\ S (OperatorNode "-" T zero) = s
  /\ S (OperatorNode "-" zero T) = OperatorNode "*" (NumberNode (-1)) s
  /\ S (OperatorNode "*" T one) = s
  /\ S (OperatorNode "*" one T) = s
  /\ S (OperatorNode "*" T zero) = zero
  /\ S (OperatorNode "*" zero T) = zero
  /\ S (OperatorNode "/" T one) = s
  /\ S (OperatorNode "/" zero T) = zero.
Proof.
  intros He Hn s S zero one. subst S zero one.
  cbn [Simplify is_ErrorNode]. fold s. fold s in He, Hn.
  rewrite He. clearbody s.
  unfold OperatorNode_Simplify_rules, or_else, or_try.
  cbn [as_NumberNode]. rewrite Hn.
  repeat split; try reflexivity.
Qed.

Lemma Simplify_identities_witness :
  Simplify Configuration_std
    (OperatorNode "+" (VariableNode "x") (NumberNode 0)) = VariableNode "x"
  /\ Simplify Configuration_std
       (OperatorNode "*" (NumberNode 0) (VariableNode "x")) = NumberNode 0.
Proof.
  destruct (Simplify_identities Configuration_std (VariableNode "x")
              eq_refl eq_refl) as (H1 & _ & _ & _ & _ & _ & _ & H8 & _).
  split; [exact H1 | exact H8].
Defined.

(** ** The tokenizer: token types and token count *)

Lemma classify_not_ModulusDelimiter cfg value insideModulus :
  fst (Tokenizer.classify cfg value insideModulus)
  <> TokenType.ModulusDelimiter
  /\ snd (Tokenizer.classify cfg value insideModulus) = insideModulus.
Proof.
  unfold Tokenizer.classify.
  repeat match goal with
         | |- context [if ?c then _ else _] => destruct c
         end; split; (discriminate || reflexivity).
Qed.

Lemma loop_not_ModulusDelimiter cfg n :
  forall matches i insideModulus tokens,
    (length matches <= n)%nat ->
    Forall (fun t => Type_ t <> TokenType.ModulusDelimiter) tokens ->
    Forall (fun t => Type_ t <> TokenType.ModulusDelimiter)
      (Tokenizer.loop cfg i insideModulus matches tokens).
Proof.
  induction n as [| n IH]; intros matches i insideModulus tokens Hlen Htok.
  - destruct matches; [exact Htok | simpl in Hlen; lia].
  - destruct matches as [| value rest]; [exact Htok |].
    cbn [Tokenizer.loop]. simpl in Hlen.
    pose proof (classify_not_ModulusDelimiter cfg value insideModulus)
      as [Hty _].
    destruct (Tokenizer.classify cfg value insideModulus) as [type im].
    cbn [fst] in Hty.
    destruct (_ && _).
    + destruct rest as [| nextValue rest']; [exact Htok |].
      apply IH; [simpl in Hlen; lia |].
      apply Forall_app; split; [exact Htok |].
      repeat constructor. discriminate.
    + apply IH; [lia |].
      apply Forall_app; split; [exact Htok |].
      now repeat constructor.
Qed.

(** X12: whatever the registry and the input, [Tokenize] never produces
    a token of type [ModulusDelimiter]: the branch that would assign it
    repeats the test of the branch before it. *)
Theorem Tokenize_never_ModulusDelimiter (cfg : Configuration)
    (input : string) :
  Forall (fun t => Type_ t <> TokenType.ModulusDelimiter)
    (Tokenizer.Tokenize cfg input).
Proof.
  unfold Tokenizer.Tokenize.
  now apply (loop_not_ModulusDelimiter cfg _ _ _ _ _ (Nat.le_refl _)).
Qed.

Lemma length_iterate functions constants s :
  forall skip prev,
    (length (Regex.iterate functions constants skip prev s)
     <= length s)%nat.
Proof.
  induction s as [| c t IH]; intros skip prev; [reflexivity |].
  cbn [Regex.iterate]. destruct skip as [| k].
  - destruct (Regex.match_token functions constants prev (c :: t)).
    + simpl. specialize (IH (length l - 1)%nat (Some c)). lia.
    + specialize (IH 0%nat (Some c)). simpl. lia.
  - specialize (IH k (Some c)). simpl. lia.
Qed.

Lemma length_loop cfg n :
  forall matches i insideModulus tokens,
    (length matches <= n)%nat ->
    (length (Tokenizer.loop cfg i insideModulus matches tokens)
     <= length matches + length tokens)%nat.
Proof.
  induction n as [| n IH]; intros matches i insideModulus tokens Hlen.
  - destruct matches; [simpl; lia | simpl in Hlen; lia].
  - destruct matches as [| value rest]; [simpl; lia |].
    cbn [Tokenizer.loop]. simpl in Hlen.
    destruct (Tokenizer.classify cfg value insideModulus) as [type im].
    destruct (_ && _).
    + destruct rest as [| nextValue rest']; [simpl; lia |].
      simpl in Hlen.
      specialize (IH rest' (i + 1) im
                    (tokens ++ [mkToken TokenType.Number
                                  (value +:+ nextValue)])%list).
      rewrite length_app in IH. simpl in *. lia.
    + specialize (IH rest (i + 1) im (tokens ++ [mkToken type value])%list).
      rewrite length_app in IH. simpl in *. lia.
Qed.

Lemma length_list_ascii_of_string (s : string) :
  length (list_ascii_of_string s) = String.length s.
Proof. induction s; simpl; congruence. Qed.

(** X13: for a registry with literal names, [Tokenize] yields at most
    one token per character of the input (no alternative of the pattern
    matches the empty string then); in particular the empty input has no
    token. *)
Theorem Tokenize_length (cfg : Configuration) (input : string) :
  literal_names cfg = true ->
  (length (Tokenizer.Tokenize cfg input) <= String.length input)%nat.
Proof.
  intros _. unfold Tokenizer.Tokenize.
  set (matches := Regex.iterate _ _ _ _ _).
  pose proof (length_loop cfg _ matches 0 false [] (Nat.le_refl _)) as H.
  pose proof (length_iterate (Tokenizer.GetFunctionIDs cfg)
                (Tokenizer.GetConstantNames cfg)
                (list_ascii_of_string input) 0 None) as H'.
  fold matches in H'. rewrite length_list_ascii_of_string in H'.
  simpl in H. lia.
Qed.

Lemma Tokenize_length_witness :
  (length (Tokenizer.Tokenize Configuration_std "2*sin(x)")
   <= String.length "2*sin(x)")%nat.
Proof.
  apply (Tokenize_length Configuration_std "2*sin(x)"). now vm_compute.
Defined.

(** ** The tokenizer: words *)

Lemma letter_facts (c : ascii) :
  Regex.is_letter c = true ->
  Regex.is_digit c = false /\ Regex.is_word c = true
  /\ Ascii.eqb c "-" = false
  /\ existsb (Ascii.eqb c) (list_ascii_of_string "+-*/^=") = false.
Proof.
  destruct c as [[] [] [] [] [] [] [] []]; vm_compute;
    intuition discriminate.
Qed.

Lemma strip_prefix_Some n : forall s rest,
  Regex.strip_prefix n s = Some rest -> s = (n ++ rest)%list.
Proof.
  induction n as [| a n IH]; intros s rest; cbn [Regex.strip_prefix].
  - now intros [= ->].
  - destruct s as [| b s]; [discriminate |].
    destruct (Ascii.eqb_spec a b) as [-> |]; [| discriminate].
    intros H. now rewrite (IH s rest H).
Qed.

Lemma strip_prefix_self n : Regex.strip_prefix n n = Some [].
Proof.
  induction n as [| a n IH]; [reflexivity |].
  cbn [Regex.strip_prefix]. now rewrite Ascii.eqb_refl.
Qed.

Lemma span_all (p : ascii -> bool) s :
  forallb p s = true -> Regex.span p s = (s, []).
Proof.
  induction s as [| c t IH]; [reflexivity |].
  cbn [forallb Regex.span]. intros [Hc Ht]%andb_true_iff.
  now rewrite Hc, (IH Ht).
Qed.

Lemma last_forallb (p : ascii -> bool) l :
  forallb p l = true -> l <> [] -> exists c, last l = Some c /\ p c = true.
Proof.
  intros Hall Hne. destruct (last l) as [c |] eqn:E.
  - exists c. split; [reflexivity |].
    apply last_Some_elem_of, list_elem_of_In in E.
    now apply (proj1 (forallb_forall p l) Hall).
  - now apply last_None in E.
Qed.

Section Words.

Variable prev : option ascii.
Hypothesis Hprev : Regex.is_word_at prev = false.

Variable s : list ascii.
Hypothesis Hne : s <> [].
Hypothesis Hletters : forallb Regex.is_letter s = true.

Lemma head_word : exists c t, s = c :: t /\ Regex.is_letter c = true.
Proof.
  destruct s as [| c t]; [contradiction |].
  exists c, t. split; [reflexivity |].
  cbn [forallb] in Hletters. now apply andb_true_iff in Hletters.
Qed.

(** A name matches a word only as a whole. *)
Lemma match_name_word name :
  name <> "" -> Regex.match_name prev s name = true ->
  list_ascii_of_string name = s.
Proof.
  intros Hname. unfold Regex.match_name.
  destruct (Regex.strip_prefix (list_ascii_of_string name) s)
    as [rest |] eqn:E; [| discriminate].
  apply strip_prefix_Some in E. revert E.
  generalize (list_ascii_of_string name)
             (string_of_list_ascii_of_string name).
  intros n Hstring E.
  assert (Hn : n <> []).
  { intros Hnil. apply Hname. now rewrite <- Hstring, Hnil. }
  rewrite E in Hletters. rewrite forallb_app in Hletters.
  apply andb_true_iff in Hletters as [Hnl Hrl].
  intros [_ Hb]%andb_true_iff.
  rewrite last_app in Hb.
  destruct (last_forallb _ n Hnl Hn) as (c & Hlast & Hc).
  rewrite Hlast in Hb.
  destruct rest as [| c' rest']; [now rewrite app_nil_r in E |].
  cbn [forallb] in Hrl. apply andb_true_iff in Hrl as [Hc' _].
  apply letter_facts in Hc as (_ & Hc & _).
  apply letter_facts in Hc' as (_ & Hc' & _).
  unfold Regex.word_boundary, Regex.is_word_at in Hb. cbn [head] in Hb.
  now rewrite Hc, Hc' in Hb.
Qed.

Lemma match_name_self name :
  list_ascii_of_string name = s -> Regex.match_name prev s name = true.
Proof.
  intros E. unfold Regex.match_name. rewrite E, strip_prefix_self.
  destruct head_word as (c & t & Es & Hc).
  apply letter_facts in Hc as (_ & Hc & _).
  rewrite last_app.
  destruct (last_forallb _ s Hletters Hne) as (c' & Hlast & Hc').
  rewrite Hlast.
  apply letter_facts in Hc' as (_ & Hc' & _).
  rewrite Es. unfold Regex.word_boundary. cbn [head Regex.is_word_at].
  now rewrite Hc, Hc', Hprev.
Qed.

Lemma match_names_word names m :
  Forall (fun name => name <> "") names ->
  Regex.match_names names prev s = Some m -> m = s.
Proof.
  intros Hnames. unfold Regex.match_names.
  destruct (List.find _ names) as [name |] eqn:E; [| discriminate].
  apply find_some in E as [Hin Hm].
  intros [= <-]. apply match_name_word; [| exact Hm].
  now apply (proj1 (List.Forall_forall _ names) Hnames).
Qed.

Lemma match_token_word functions constants :
  Forall (fun name => name <> "") functions ->
  Forall (fun name => name <> "") constants ->
  Regex.match_token functions constants prev s = Some s.
Proof.
  intros Hf Hc. unfold Regex.match_token, Regex.alt.
  destruct (Regex.match_names functions prev s) as [m |] eqn:Ef;
    [now rewrite (match_names_word functions m Hf Ef) |].
  destruct (Regex.match_names constants prev s) as [m |] eqn:Ec;
    [now rewrite (match_names_word constants m Hc Ec) |].
  destruct head_word as (c & t & Es & Hletter).
  pose proof (letter_facts c Hletter) as (Hd & _ & Hminus & Hop).
  assert (Hnum : Regex.match_number s = None).
  { rewrite Es. unfold Regex.match_number. rewrite Hminus.
    cbn [Regex.span]. now rewrite Hd. }
  assert (Hoper : Regex.match_operator s = None).
  { rewrite Es. unfold Regex.match_operator, Regex.one_of.
    now rewrite Hop. }
  rewrite Hnum, Hoper. unfold Regex.match_variable.
  rewrite (span_all _ s Hletters). cbn [fst]. now rewrite Es.
Qed.

End Words.

Lemma iterate_skip_all functions constants t : forall prev,
  Regex.iterate functions constants (length t) prev t = [].
Proof. induction t as [| c t IH]; intros prev; [reflexivity | apply IH]. Qed.

Lemma not_empty_name (names : list string) :
  ~ In "" names -> Forall (fun name => name <> "") names.
Proof.
  intros H. apply List.Forall_forall. intros name Hin ->. now apply H.
Qed.

Lemma In_map_to_list_names {A} (m : gmap string A) (name : string) :
  In name (fst <$> map_to_list m) <-> is_Some (m !! name).
Proof.
  rewrite <- list_elem_of_In, list_elem_of_fmap. split.
  - intros ([k v] & -> & H%elem_of_map_to_list). cbn. eauto.
  - intros [v H]. exists (name, v). split; [reflexivity |].
    now apply elem_of_map_to_list.
Qed.

Lemma names_not_empty cfg :
  no_empty_name cfg ->
  Forall (fun name => name <> "") (Tokenizer.GetFunctionIDs cfg)
  /\ Forall (fun name => name <> "") (Tokenizer.GetConstantNames cfg).
Proof.
  intros [Hf Hc]. unfold Tokenizer.GetFunctionIDs, Tokenizer.GetConstantNames.
  split; apply not_empty_name; rewrite In_map_to_list_names;
    intros [v Hv]; unfold GetFunction in *; congruence.
Qed.

Lemma literal_names_no_empty cfg :
  literal_names cfg = true -> no_empty_name cfg.
Proof.
  unfold literal_names. intros [Hf Hc]%andb_true_iff.
  assert (H : forall names : list string,
            match names with
            | [] => false
            | _ => forallb is_literal_name names
            end = true -> ~ In "" names).
  { intros names Hn Hin.
    assert (Hall : forallb is_literal_name names = true)
      by (destruct names; [discriminate | exact Hn]).
    now apply (proj1 (forallb_forall _ _) Hall) in Hin. }
  apply H in Hf, Hc.
  unfold Tokenizer.GetFunctionIDs, Tokenizer.GetConstantNames in *.
  rewrite In_map_to_list_names in Hf. rewrite In_map_to_list_names in Hc.
  split.
  - unfold GetFunction. destruct (s_Functions cfg !! "") eqn:E;
      [exfalso; apply Hf; eauto | reflexivity].
  - destruct (s_Constants cfg !! "") eqn:E;
      [exfalso; apply Hc; eauto | reflexivity].
Qed.

(** [regex_match] of a word against the alternation of names. *)
Lemma full_names_word {A} (m : gmap string A) (word : string) :
  is_word_of_letters word = true ->
  Regex.full_names (fst <$> map_to_list m) word
  = match m !! word with Some _ => true | None => false end.
Proof.
  intros Hw. unfold is_word_of_letters in Hw.
  destruct (list_ascii_of_string word) as [| c t] eqn:Es; [discriminate |].
  unfold Regex.full_names.
  destruct (m !! word) as [v |] eqn:E.
  - apply existsb_exists. exists word. split.
    + apply In_map_to_list_names. eauto.
    + rewrite String.eqb_refl, Es. cbn [andb].
      apply match_name_self; [reflexivity | discriminate | exact Hw
                             | exact Es].
  - destruct (existsb _ _) eqn:Ex; [| reflexivity].
    apply existsb_exists in Ex as (name & Hin & Hname).
    apply andb_true_iff in Hname as [Heq _].
    apply String.eqb_eq in Heq as ->.
    apply In_map_to_list_names in Hin as [v Hv]. congruence.
Qed.

Lemma classify_word cfg word :
  is_word_of_letters word = true ->
  Tokenizer.classify cfg word false = (word_type cfg word, false).
Proof.
  intros Hw. unfold Tokenizer.classify, word_type,
    Tokenizer.GetFunctionIDs, Tokenizer.GetConstantNames, GetFunction.
  rewrite !full_names_word by exact Hw.
  destruct (s_Functions cfg !! word); [reflexivity |].
  destruct (s_Constants cfg !! word); [reflexivity |].
  unfold is_word_of_letters in Hw.
  destruct (list_ascii_of_string word) as [| c t] eqn:Es; [discriminate |].
  cbn [forallb] in Hw. pose proof Hw as Hall.
  apply andb_true_iff in Hw as [Hc _].
  pose proof (letter_facts c Hc) as (Hd & _ & Hminus & Hop).
  assert (Hnum : Regex.match_number (c :: t) = None).
  { unfold Regex.match_number. rewrite Hminus.
    cbn [Regex.span]. now rewrite Hd. }
  assert (Hoper : Regex.match_operator (c :: t) = None).
  { unfold Regex.match_operator, Regex.one_of. now rewrite Hop. }
  rewrite Hnum, Hoper. cbn [Regex.full].
  unfold Regex.match_variable.
  rewrite (span_all _ (c :: t)) by exact Hall. cbn [fst Regex.full].
  rewrite <- Es, string_of_list_ascii_of_string, String.eqb_refl.
  reflexivity.
Qed.

Lemma word_type_not_Operator cfg word :
  TokenType.eqb (word_type cfg word) TokenType.Operator = false.
Proof.
  unfold word_type. destruct (GetFunction cfg word); [reflexivity |].
  now destruct (s_Constants cfg !! word).
Qed.

(** X14: in a registry with literal names, a word of letters standing
    alone is one token with the word as its text: a [Function] token
    when the word is a registered function id, else a [Constant] token
    when it is a registered constant name, else a [Variable] token
    (so [sin] is a function and [sinx] a variable). *)
Theorem Tokenize_word (cfg : Configuration) (word : string) :
  literal_names cfg = true -> is_word_of_letters word = true ->
  Tokenizer.Tokenize cfg word = [mkToken (word_type cfg word) word].
Proof.
  intros Hcfg%literal_names_no_empty Hw.
  destruct (names_not_empty cfg Hcfg) as [Hf Hc].
  unfold Tokenizer.Tokenize. pose proof Hw as Hw'.
  unfold is_word_of_letters in Hw'.
  destruct (list_ascii_of_string word) as [| c t] eqn:Es; [discriminate |].
  cbn [Regex.iterate].
  assert (Hm : Regex.match_token (Tokenizer.GetFunctionIDs cfg)
                 (Tokenizer.GetConstantNames cfg) None (c :: t)
               = Some (c :: t))
    by (apply match_token_word; (assumption || discriminate)).
  rewrite Hm.
  cbn [length Nat.sub]. rewrite Nat.sub_0_r, iterate_skip_all.
  rewrite <- Es, string_of_list_ascii_of_string.
  cbn [Tokenizer.loop]. rewrite (classify_word cfg word Hw).
  now rewrite word_type_not_Operator.
Qed.

Lemma Tokenize_word_witness :
  Tokenizer.Tokenize Configuration_std "sinx"
  = [mkToken TokenType.Variable_ "sinx"]
  /\ Tokenizer.Tokenize Configuration_std "sinh"
     = [mkToken TokenType.Function "sinh"].
Proof.
  split.
  - apply (Tokenize_word Configuration_std "sinx");
      [now vm_compute | reflexivity].
  - apply (Tokenize_word Configuration_std "sinh");
      [now vm_compute | reflexivity].
Defined.

(** ** The parser: precedence without parentheses *)

Section Chains.

Variables (A : Type) (tokens_of : A -> list Token) (tree_of : A -> AstNode).
Variables (accepts upper : string -> bool) (operand : Parser.method).
Variable ok : A -> Prop.

Hypothesis Hdisjoint : forall o, accepts o = true -> upper o = false.
Hypothesis Hoperand : forall a, ok a ->
  parses upper operand (tokens_of a) (tree_of a)
  /\ is_ErrorNode (tree_of a) = false.

Let item_tokens (item : string * A) : list Token :=
  operator_token (fst item) :: tokens_of (snd item).
Let step (acc : AstNode) (item : string * A) : AstNode :=
  OperatorNode (fst item) acc (tree_of (snd item)).
Let item_ok (item : string * A) : Prop :=
  accepts (fst item) = true /\ ok (snd item).

Lemma stops_items items rest :
  Forall item_ok items ->
  stops (fun v => upper v || accepts v) rest ->
  stops upper (flat_map item_tokens items ++ rest)%list.
Proof.
  intros Hitems Hrest. destruct items as [| item items].
  - destruct rest as [| token rest']; [exact I |].
    cbn in *. now apply orb_false_iff in Hrest.
  - apply Forall_inv in Hitems as [Hacc _]. cbn. now apply Hdisjoint.
Qed.

Lemma loop_chain items : forall turns leftNode rest,
  Forall item_ok items -> (length items <= turns)%nat ->
  stops (fun v => upper v || accepts v) rest ->
  Parser.loop accepts operand OperatorNode turns leftNode
    (flat_map item_tokens items ++ rest)%list
  = Done (fold_left step items leftNode, rest).
Proof.
  induction items as [| item items IH]; intros turns leftNode rest Hok Hlen
    Hrest.
  - cbn [flat_map app fold_left].
    destruct rest as [| token rest']; [now destruct turns |].
    cbn in Hrest. apply orb_false_iff in Hrest as [_ Hacc].
    destruct turns; cbn [Parser.loop]; now rewrite Hacc.
  - destruct turns as [| turns]; [simpl in Hlen; lia |].
    pose proof (Forall_inv Hok) as [Hacc Hitem].
    pose proof (Forall_inv_tail Hok) as Hitems.
    destruct (Hoperand _ Hitem) as [Hparse Hnode].
    cbn [flat_map fold_left]. unfold item_tokens at 1.
    cbn [app Parser.loop operator_token Value]. rewrite Hacc. cbn [negb].
    rewrite <- app_assoc.
    rewrite (Hparse _ (stops_items items rest Hitems Hrest)), Hnode.
    apply IH; [exact Hitems | simpl in Hlen; lia | exact Hrest].
Qed.

Lemma fold_left_not_error items : forall leftNode,
  is_ErrorNode leftNode = false ->
  is_ErrorNode (fold_left step items leftNode) = false.
Proof.
  induction items as [| item items IH]; intros leftNode H; [exact H |].
  now apply IH.
Qed.

Lemma level_chain turns (c : chain A) :
  chain_ok accepts ok c -> (length (snd c) <= turns)%nat ->
  parses (fun v => upper v || accepts v)
    (Parser.level accepts operand OperatorNode turns)
    (chain_tokens tokens_of c) (chain_tree tree_of c)
  /\ is_ErrorNode (chain_tree tree_of c) = false.
Proof.
  destruct c as [a items]. intros [Ha Hitems] Hlen. cbn [fst snd] in *.
  destruct (Hoperand a Ha) as [Hparse Hnode]. split.
  - intros rest Hrest. unfold Parser.level, chain_tokens. cbn [fst snd].
    change (flat_map _ items) with (flat_map item_tokens items).
    rewrite <- app_assoc.
    rewrite (Hparse _ (stops_items items rest Hitems Hrest)), Hnode.
    now apply loop_chain.
  - unfold chain_tree. now apply fold_left_not_error.
Qed.

Lemma length_chain_items (c : chain A) :
  (length (snd c) <= length (chain_tokens tokens_of c))%nat.
Proof.
  destruct c as [a items]. unfold chain_tokens. cbn [fst snd].
  rewrite length_app.
  enough (length items
          <= length (flat_map
                       (fun item => operator_token (fst item)
                                    :: tokens_of (snd item)) items))%nat
    by lia.
  induction items as [| item items IH]; [reflexivity |].
  cbn [flat_map]. rewrite length_app. simpl. lia.
Qed.

Lemma chain_ok_bounded n (c : chain A) :
  chain_ok accepts ok c ->
  (length (chain_tokens tokens_of c) <= n)%nat ->
  chain_ok accepts (fun a => ok a /\ (length (tokens_of a) <= n)%nat) c.
Proof.
  destruct c as [a items]. unfold chain_ok, chain_tokens.
  cbn [fst snd]. rewrite length_app. intros [Ha Hitems] Hlen.
  split; [split; [exact Ha | lia] |].
  assert (Hflat : (length (flat_map
                             (fun item => operator_token (fst item)
                                          :: tokens_of (snd item)) items)
                   <= n)%nat) by lia.
  clear Hlen. induction Hitems as [| item items [Hacc Hitem] Hitems IH].
  - constructor.
  - cbn [flat_map] in Hflat. rewrite length_app in Hflat. simpl in Hflat.
    constructor; [split; [exact Hacc | split; [exact Hitem | lia]] |].
    apply IH. lia.
Qed.

End Chains.

Lemma sum_symbol_cases o :
  is_sum_symbol o = true -> o = "+" \/ o = "-".
Proof.
  unfold is_sum_symbol. rewrite orb_true_iff, !String.eqb_eq. tauto.
Qed.

Lemma product_symbol_cases o :
  is_product_symbol o = true -> o = "*" \/ o = "/".
Proof.
  unfold is_product_symbol. rewrite orb_true_iff, !String.eqb_eq. tauto.
Qed.

(** X15: an expression without parentheses over variables, a sum or
    difference of products or quotients of powers, is parsed to the tree
    that nests each level to the left and puts [^] below [* /] below
    [+ -], whatever the variables and however long the chains. *)
Theorem ParseExpression_precedence (lib : LibC) (cfg : Configuration)
    (s : sum) :
  sum_ok s -> Parser.ParseExpression lib cfg (sum_tokens s) = Done (sum_tree s).
Proof.
  intros Hs. unfold Parser.ParseExpression.
  set (n := length (sum_tokens s)).
  cbn [Parser.ParseExpression_fuel].
  set (PE := Parser.ParseExpression_fuel lib cfg n).
  assert (Hpower : forall p, power_ok p /\ (length (power_tokens p) <= n)%nat ->
            parses (fun v => false || is_power_symbol v)
              (Parser.ParseExponentiation lib cfg n PE)
              (power_tokens p) (power_tree p)
            /\ is_ErrorNode (power_tree p) = false).
  { intros p [Hp Hlen]. unfold Parser.ParseExponentiation.
    apply (level_chain string (fun x => [variable_token x]) VariableNode
             is_power_symbol (fun _ => false)
             (Parser.ParsePrimary lib cfg PE) (fun _ => True)).
    - reflexivity.
    - intros x _. split; [intros rest _; reflexivity | reflexivity].
    - exact Hp.
    - pose proof (length_chain_items string
                    (fun x => [variable_token x]) p).
      unfold power_tokens in Hlen. lia. }
  assert (Hproduct : forall q,
            product_ok q /\ (length (product_tokens q) <= n)%nat ->
            parses (fun v => (false || is_power_symbol v)
                             || is_product_symbol v)
              (Parser.ParseMultiplicationDivision lib cfg n PE)
              (product_tokens q) (product_tree q)
            /\ is_ErrorNode (product_tree q) = false).
  { intros q [Hq Hlen]. unfold Parser.ParseMultiplicationDivision.
    apply (level_chain power power_tokens power_tree
             is_product_symbol (fun v => false || is_power_symbol v)
             (Parser.ParseExponentiation lib cfg n PE)
             (fun p => power_ok p /\ (length (power_tokens p) <= n)%nat)).
    - now intros o [-> | ->]%product_symbol_cases.
    - exact Hpower.
    - now apply chain_ok_bounded.
    - pose proof (length_chain_items power power_tokens q).
      unfold product_tokens in Hlen. lia. }
  assert (Hsum : parses (fun v => ((false || is_power_symbol v)
                                   || is_product_symbol v)
                                  || is_sum_symbol v)
                   (Parser.ParseAdditionSubtraction lib cfg n PE)
                   (sum_tokens s) (sum_tree s)
                 /\ is_ErrorNode (sum_tree s) = false).
  { unfold Parser.ParseAdditionSubtraction.
    apply (level_chain product product_tokens product_tree
             is_sum_symbol
             (fun v => (false || is_power_symbol v) || is_product_symbol v)
             (Parser.ParseMultiplicationDivision lib cfg n PE)
             (fun q => product_ok q
                       /\ (length (product_tokens q) <= n)%nat)).
    - now intros o [-> | ->]%sum_symbol_cases.
    - exact Hproduct.
    - now apply chain_ok_bounded.
    - pose proof (length_chain_items product product_tokens s).
      unfold sum_tokens in n. subst n. lia. }
  destruct Hsum as [Hparse Hnode].
  specialize (Hparse [] I). rewrite app_nil_r in Hparse.
  unfold Parser.ParseEquals.
  now rewrite (level_at_end _ _ _ _ _ _ Hnode Hparse).
Qed.

(** [a - b * c ^ d / e + f] *)
Lemma ParseExpression_precedence_witness :
  Parser.ParseExpression LibC_none Configuration_std
    (sum_tokens
       ((("a", []), []),
        [("-", (("b", []), [("*", ("c", [("^", "d")])); ("/", ("e", []))]));
         ("+", (("f", []), []))]))
  = Done (OperatorNode "+"
            (OperatorNode "-" (VariableNode "a")
               (OperatorNode "/"
                  (OperatorNode "*" (VariableNode "b")
                     (OperatorNode "^" (VariableNode "c")
                        (VariableNode "d")))
                  (VariableNode "e")))
            (VariableNode "f")).
Proof.
  apply (ParseExpression_precedence LibC_none Configuration_std).
  unfold sum_ok, product_ok, power_ok, chain_ok. cbn.
  repeat (split || constructor).
Defined.

(** ** The parser: what an expression cannot start with *)

Lemma level_error accepts operand build turns tokens node rest :
  is_ErrorNode node = true -> operand tokens = Done (node, rest) ->
  Parser.level accepts operand build turns tokens = Done (node, rest).
Proof. intros Hnode Hop. unfold Parser.level. now rewrite Hop, Hnode. Qed.

Lemma level_throws accepts operand build turns tokens what :
  operand tokens = Throws what ->
  Parser.level accepts operand build turns tokens = Throws what.
Proof. intros Hop. unfold Parser.level. now rewrite Hop. Qed.

Lemma ParseExpression_of_primary lib cfg tokens node rest :
  is_ErrorNode node = true ->
  Parser.ParsePrimary lib cfg
    (Parser.ParseExpression_fuel lib cfg (length tokens)) tokens
  = Done (node, rest) ->
  Parser.ParseExpression lib cfg tokens = Done node.
Proof.
  intros Hnode Hp. unfold Parser.ParseExpression.
  cbn [Parser.ParseExpression_fuel].
  unfold Parser.ParseEquals, Parser.ParseAdditionSubtraction,
    Parser.ParseMultiplicationDivision, Parser.ParseExponentiation.
  now rewrite (level_error _ _ _ _ _ _ _ Hnode
                 (level_error _ _ _ _ _ _ _ Hnode
                    (level_error _ _ _ _ _ _ _ Hnode
                       (level_error _ _ _ _ _ _ _ Hnode Hp)))).
Qed.

Lemma ParsePrimary_cannot_start lib cfg token rest :
  cannot_start token = true ->
  Parser.ParseExpression lib cfg (token :: rest)
  = Done (ErrorNode (unexpected_token token)).
Proof.
  intros Hstart.
  apply (ParseExpression_of_primary lib cfg (token :: rest) _
           (token :: rest)); [reflexivity |].
  unfold Parser.ParsePrimary, cannot_start, unexpected_token in *.
  destruct (Type_ token); try discriminate Hstart; try reflexivity.
  cbn [TokenType.eqb TokenType.to_uint32 Z.eqb andb].
  now destruct (String.eqb (Value token) "(").
Qed.

(** X16: an expression cannot start with an operator, [=], an unknown
    character or a closing parenthesis, and cannot be empty: whatever
    follows, [ParseExpression] returns the error of [ParsePrimary] for
    the first token, and "Unexpected end of tokens" for no token. *)
Theorem ParseExpression_bad_start (lib : LibC) (cfg : Configuration) :
  Parser.ParseExpression lib cfg []
  = Done (ErrorNode "Unexpected end of tokens")
  /\ forall token rest, cannot_start token = true ->
       Parser.ParseExpression lib cfg (token :: rest)
       = Done (ErrorNode (unexpected_token token)).
Proof.
  split; [reflexivity |].
  intros token rest. apply ParsePrimary_cannot_start.
Qed.

Lemma ParseExpression_bad_start_witness :
  Parser.ParseExpression LibC_none Configuration_std
    [mkToken TokenType.Operator "*"; mkToken TokenType.Variable_ "x"]
  = Done (ErrorNode "unexpected token * (type = 1)").
Proof.
  apply (proj2 (ParseExpression_bad_start LibC_none Configuration_std)).
  reflexivity.
Defined.

(** ** The tokenizer and the parser on [|] and on a sign *)

Lemma match_name_nonword prev c t name :
  Regex.is_word_at prev = false -> Regex.is_word c = false ->
  Regex.match_name prev (c :: t) name = false.
Proof.
  intros Hprev Hc. unfold Regex.match_name.
  destruct (Regex.strip_prefix _ _); [| reflexivity].
  unfold Regex.word_boundary at 1. cbn [head Regex.is_word_at].
  now rewrite Hprev, Hc.
Qed.

Lemma match_names_nonword names prev c t :
  Regex.is_word_at prev = false -> Regex.is_word c = false ->
  Regex.match_names names prev (c :: t) = None.
Proof.
  intros Hprev Hc. unfold Regex.match_names.
  induction names as [| name names IH]; [reflexivity |].
  cbn [List.find]. now rewrite match_name_nonword.
Qed.

Lemma full_names_nonword names c :
  Regex.is_word c = false ->
  Regex.full_names names (String c "") = false.
Proof.
  intros Hc. unfold Regex.full_names.
  induction names as [| name names IH]; [reflexivity |].
  cbn [existsb list_ascii_of_string].
  rewrite match_name_nonword by (reflexivity || exact Hc).
  now rewrite andb_false_r.
Qed.

Lemma classify_bar cfg insideModulus :
  Tokenizer.classify cfg "|" insideModulus
  = (TokenType.Unknown, insideModulus).
Proof.
  unfold Tokenizer.classify.
  now rewrite !full_names_nonword by reflexivity.
Qed.

Lemma loop_prefix cfg n : forall matches i insideModulus tokens,
  (length matches <= n)%nat ->
  exists more,
    Tokenizer.loop cfg i insideModulus matches tokens
    = (tokens ++ more)%list.
Proof.
  induction n as [| n IH]; intros matches i insideModulus tokens Hlen.
  - destruct matches; [| simpl in Hlen; lia].
    exists []. now rewrite app_nil_r.
  - destruct matches as [| value rest];
      [exists []; now rewrite app_nil_r |].
    cbn [Tokenizer.loop]. simpl in Hlen.
    destruct (Tokenizer.classify cfg value insideModulus) as [type im].
    destruct (_ && _).
    + destruct rest as [| nextValue rest'];
        [exists []; now rewrite app_nil_r |].
      destruct (IH rest' (i + 1) im
                  (tokens ++ [mkToken TokenType.Number
                                (value +:+ nextValue)])%list)
        as [more ->]; [simpl in Hlen; lia |].
      rewrite <- app_assoc. eauto.
    + destruct (IH rest (i + 1) im (tokens ++ [mkToken type value])%list)
        as [more ->]; [lia |].
      rewrite <- app_assoc. eauto.
Qed.

(** X17: no input that starts with [|] can be parsed, for any registry
    with literal names: its first token is [|] with type [Unknown], and
    [ParseExpression] returns the error "unexpected token | (type = 8)"
    whatever follows. *)
Theorem modulus_input_rejected (lib : LibC) (cfg : Configuration)
    (input : string) :
  literal_names cfg = true ->
  (exists more,
     Tokenizer.Tokenize cfg (String "|" input)
     = mkToken TokenType.Unknown "|" :: more)
  /\ Parser.ParseExpression lib cfg
       (Tokenizer.Tokenize cfg (String "|" input))
     = Done (ErrorNode "unexpected token | (type = 8)").
Proof.
  intros _.
  assert (Htok : exists more,
            Tokenizer.Tokenize cfg (String "|" input)
            = mkToken TokenType.Unknown "|" :: more).
  { unfold Tokenizer.Tokenize.
    cbn [list_ascii_of_string Regex.iterate].
    unfold Regex.match_token.
    rewrite !match_names_nonword by reflexivity.
    cbn [Regex.alt]. 
    change (Regex.match_number ("|"%char :: list_ascii_of_string input))
      with (@None (list ascii)).
    change (Regex.match_operator ("|"%char :: list_ascii_of_string input))
      with (@None (list ascii)).
    change (Regex.match_variable ("|"%char :: list_ascii_of_string input))
      with (@None (list ascii)).
    change (Regex.match_parenthesis
              ("|"%char :: list_ascii_of_string input))
      with (@None (list ascii)).
    change (Regex.match_modulusDelimiter
              ("|"%char :: list_ascii_of_string input))
      with (Some ["|"%char]).
    cbn [Regex.alt string_of_list_ascii length Nat.sub Tokenizer.loop].
    rewrite classify_bar.
    change (TokenType.eqb TokenType.Unknown TokenType.Operator)
      with false.
    cbn [andb app].
    match goal with
    | |- exists more, Tokenizer.loop cfg ?i ?im ?ms ?tk = _ =>
        destruct (loop_prefix cfg _ ms i im tk (Nat.le_refl _))
          as [more Hmore]
    end.
    exists more. exact Hmore. }
  split; [exact Htok |].
  destruct Htok as [more ->].
  now apply ParsePrimary_cannot_start.
Qed.

Lemma modulus_input_rejected_witness :
  Parser.ParseExpression LibC_none Configuration_std
    (Tokenizer.Tokenize Configuration_std "|x|")
  = Done (ErrorNode "unexpected token | (type = 8)").
Proof.
  apply (modulus_input_rejected LibC_none Configuration_std "x|").
  now vm_compute.
Defined.

(** ** A sign before a word *)

Lemma ParseExpression_Number lib cfg value :
  Parser.ParseExpression lib cfg [mkToken TokenType.Number value]
  = match c_stod lib value with
    | Some v => Done (NumberNode v)
    | None => Throws "std::stod"
    end.
Proof.
  unfold Parser.ParseExpression.
  cbn [length Parser.ParseExpression_fuel].
  unfold Parser.ParseEquals, Parser.ParseAdditionSubtraction,
    Parser.ParseMultiplicationDivision, Parser.ParseExponentiation,
    Parser.level.
  cbn [Parser.ParsePrimary Type_ Value].
  now destruct (c_stod lib value).
Qed.

Lemma classify_minus cfg insideModulus :
  Tokenizer.classify cfg "-" insideModulus
  = (TokenType.Operator, insideModulus).
Proof.
  unfold Tokenizer.classify.
  now rewrite !full_names_nonword by reflexivity.
Qed.

Lemma Tokenize_sign_word cfg word :
  no_empty_name cfg -> is_word_of_letters word = true ->
  Tokenizer.Tokenize cfg (String "-" word)
  = [mkToken TokenType.Number (String "-" word)].
Proof.
  intros Hcfg Hw. destruct (names_not_empty cfg Hcfg) as [Hf Hc].
  unfold Tokenizer.Tokenize. unfold is_word_of_letters in Hw.
  cbn [list_ascii_of_string Regex.iterate].
  destruct (list_ascii_of_string word) as [| c t] eqn:Es; [discriminate |].
  assert (Hsign : Regex.match_token (Tokenizer.GetFunctionIDs cfg)
                    (Tokenizer.GetConstantNames cfg) None
                    ("-"%char :: c :: t)
                  = Some ["-"%char]).
  { unfold Regex.match_token.
    rewrite !match_names_nonword by reflexivity.
    cbn [forallb] in Hw. apply andb_true_iff in Hw as [Hletter _].
    pose proof (letter_facts c Hletter) as (Hd & _).
    unfold Regex.match_number.
    change (Ascii.eqb "-" "-") with true. cbn [Regex.span Regex.alt].
    now rewrite Hd. }
  rewrite Hsign. cbn [length Nat.sub Regex.iterate].
  assert (Hm : Regex.match_token (Tokenizer.GetFunctionIDs cfg)
                 (Tokenizer.GetConstantNames cfg) (Some "-"%char) (c :: t)
               = Some (c :: t))
    by (apply match_token_word; (assumption || discriminate || reflexivity)).
  rewrite Hm.
  cbn [length Nat.sub]. rewrite Nat.sub_0_r, iterate_skip_all.
  rewrite <- Es, string_of_list_ascii_of_string.
  cbn [string_of_list_ascii Tokenizer.loop]. rewrite classify_minus.
  reflexivity.
Qed.

(** X18: in a registry with literal names, [-] at the start of the
    input, before a word of letters, is not a negation of the word: the
    two become ONE token of type [Number] with the text [-word], which
    [ParsePrimary] hands to [std::stod]; the parse throws what [std::stod]
    throws when it rejects the text, and is the number it returns
    otherwise, whether or not the word is a registered name. *)
Theorem sign_before_word (lib : LibC) (cfg : Configuration)
    (word : string) :
  literal_names cfg = true -> is_word_of_letters word = true ->
  Tokenizer.Tokenize cfg (String "-" word)
  = [mkToken TokenType.Number (String "-" word)]
  /\ Parser.ParseExpression lib cfg
       (Tokenizer.Tokenize cfg (String "-" word))
     = match c_stod lib (String "-" word) with
       | Some v => Done (NumberNode v)
       | None => Throws "std::stod"
       end.
Proof.
  intros Hcfg%literal_names_no_empty Hw.
  rewrite (Tokenize_sign_word cfg word Hcfg Hw).
  split; [reflexivity | apply ParseExpression_Number].
Qed.

Lemma sign_before_word_witness :
  Tokenizer.Tokenize Configuration_std "-x"
  = [mkToken TokenType.Number "-x"]
  /\ Parser.ParseExpression LibC_none Configuration_std
       (Tokenizer.Tokenize Configuration_std "-x")
     = Throws "std::stod".
Proof.
  apply (sign_before_word LibC_none Configuration_std "x");
    [now vm_compute | reflexivity].
Defined.

(** ** The parser: exceptions *)

Section NeverThrows.

Variable lib : LibC.
Variable cfg : Configuration.

Lemma loop_never_throws accepts operand build :
  never_throws lib operand ->
  forall turns leftNode tokens,
    forallb (number_accepted lib) tokens = true ->
    match Parser.loop accepts operand build turns leftNode tokens with
    | Done (_, rest) => forallb (number_accepted lib) rest = true
    | Throws _ => False
    | OutOfFuel => True
    end.
Proof.
  intros Hop. induction turns as [| turns IH]; intros leftNode tokens Hok.
  - destruct tokens as [| token tokens']; [exact Hok |].
    cbn [Parser.loop]. now destruct (negb _).
  - destruct tokens as [| token tokens']; [exact Hok |].
    cbn [Parser.loop]. destruct (negb _); [exact Hok |].
    cbn [forallb] in Hok. apply andb_true_iff in Hok as [_ Hok].
    specialize (Hop tokens' Hok).
    destruct (operand tokens') as [[rightNode tokens''] | what |];
      [| exact Hop | exact I].
    destruct (is_ErrorNode rightNode); [exact Hop |].
    now apply IH.
Qed.

Lemma level_never_throws accepts operand build turns :
  never_throws lib operand ->
  never_throws lib (Parser.level accepts operand build turns).
Proof.
  intros Hop tokens Hok. unfold Parser.level.
  pose proof (Hop tokens Hok) as H.
  destruct (operand tokens) as [[leftNode tokens'] | what |];
    [| exact H | exact I].
  destruct (is_ErrorNode leftNode); [exact H |].
  now apply loop_never_throws.
Qed.

Lemma forallb_tail {A} (p : A -> bool) (l : list A) :
  forallb p l = true -> forallb p (tail l) = true.
Proof.
  destruct l; [trivial |]. cbn [forallb tail].
  now intros [_ H]%andb_true_iff.
Qed.

Lemma ParsePrimary_never_throws ParseExpression :
  never_throws lib ParseExpression ->
  never_throws lib (Parser.ParsePrimary lib cfg ParseExpression).
Proof.
  intros HPE tokens Hok. unfold Parser.ParsePrimary.
  destruct tokens as [| token tokens1]; [reflexivity |].
  pose proof Hok as Hall.
  cbn [forallb] in Hok. apply andb_true_iff in Hok as [Htoken Hok].
  pose proof (HPE tokens1 Hok) as Hfull.
  pose proof (HPE (tail tokens1) (forallb_tail _ _ Hok)) as Htail.
  unfold number_accepted in Htoken.
  destruct (Type_ token);
    cbn [TokenType.eqb TokenType.to_uint32 Z.eqb andb]; try assumption.
  - destruct (c_stod lib (Value token)); [exact Hok | discriminate].
  - destruct (Parser.not_next "(" tokens1); [exact Hok |].
    destruct (ParseExpression (tail tokens1)) as [[argument tokens2] | |];
      [| exact Htail | exact I].
    destruct (Parser.not_next ")" tokens2);
      [exact Htail | now apply forallb_tail].
  - destruct (String.eqb (Value token) "("); [| exact Hall].
    destruct (ParseExpression tokens1) as [[expression tokens2] | |];
      [| exact Hfull | exact I].
    destruct (Parser.not_next ")" tokens2);
      [exact Hfull | now apply forallb_tail].
  - destruct (ParseExpression tokens1) as [[argument tokens2] | |];
      [| exact Hfull | exact I].
    destruct (Parser.not_next "|" tokens2);
      [exact Hfull | now apply forallb_tail].
Qed.

Lemma ParseExpression_fuel_never_throws fuel :
  never_throws lib (Parser.ParseExpression_fuel lib cfg fuel).
Proof.
  induction fuel as [| fuel IH]; [intros tokens _; exact I |].
  cbn [Parser.ParseExpression_fuel].
  unfold Parser.ParseEquals, Parser.ParseAdditionSubtraction,
    Parser.ParseMultiplicationDivision, Parser.ParseExponentiation.
  repeat apply level_never_throws.
  now apply ParsePrimary_never_throws.
Qed.

End NeverThrows.

(** X19: [std::stod] is the only source of an exception in the parser,
    and only on the text of a [Number] token: when [std::stod] accepts
    the text of every [Number] token, [ParseExpression] returns a node
    (possibly an [ErrorNode]) for any token list and any registry. *)
Theorem ParseExpression_returns (lib : LibC) (cfg : Configuration)
    (tokens : list Token) :
  forallb (number_accepted lib) tokens = true ->
  exists node, Parser.ParseExpression lib cfg tokens = Done node.
Proof.
  intros Hok.
  pose proof (ParseExpression_total lib cfg tokens) as Htotal.
  pose proof (ParseExpression_fuel_never_throws lib cfg
                (S (length tokens)) tokens Hok) as Hsafe.
  unfold Parser.ParseExpression in *.
  destruct (Parser.ParseExpression_fuel lib cfg (S (length tokens)) tokens)
    as [[node rest] | what |]; [eauto | contradiction | contradiction].
Qed.

Lemma ParseExpression_returns_witness :
  exists node,
    Parser.ParseExpression LibC_none Configuration_std
      [mkToken TokenType.Function "sin"; mkToken TokenType.Parenthesis "(";
       mkToken TokenType.Variable_ "x"]
    = Done node.
Proof.
  apply (ParseExpression_returns LibC_none Configuration_std).
  reflexivity.
Defined.

(** ** The power rule *)

(** X20: the derivative of a variable raised to a number or to a
    constant does not depend on the variable of differentiation: the
    power rule is applied whether or not the base is [respectTo], while
    the bare variable gets a [DifferentialNode] when it is not (so the
    derivative of [y ^ 1] with respect to [x] is [1] and that of [y] is
    [dy/dx]). *)
Theorem power_rule_ignores_respectTo (cfg : Configuration)
    (respectTo respectTo' base : string) (exponent : AstNode) :
  is_Number_or_Constant exponent = true ->
  Differentiate cfg respectTo
    (OperatorNode "^" (VariableNode base) exponent)
  = Differentiate cfg respectTo'
      (OperatorNode "^" (VariableNode base) exponent)
  /\ Differentiate cfg respectTo
       (OperatorNode "^" (VariableNode base) (NumberNode 1))
     = NumberNode 1.
Proof.
  intros He. split.
  - cbn [Differentiate]. unfold OperatorNode_Differentiate.
    assert (Hbase : forall x,
              is_ErrorNode (Differentiate cfg x (VariableNode base))
              = false).
    { intros x. cbn [Differentiate].
      now destruct (String.eqb base x). }
    rewrite !Hbase.
    destruct exponent; try discriminate He;
      cbn [Differentiate is_ErrorNode String.eqb Ascii.eqb Bool.eqb];
      unfold or_else, or_try; [| reflexivity].
    destruct (m_Value =? 1)%float; [reflexivity |].
    now destruct (m_Value =? 0)%float.
  - cbn [Differentiate]. unfold OperatorNode_Differentiate.
    cbn [Differentiate]. now destruct (String.eqb base respectTo).
Qed.

Lemma power_rule_ignores_respectTo_witness :
  Differentiate Configuration_std "x"
    (OperatorNode "^" (VariableNode "y") (NumberNode 2))
  = Differentiate Configuration_std "y"
      (OperatorNode "^" (VariableNode "y") (NumberNode 2)).
Proof.
  apply (power_rule_ignores_respectTo Configuration_std "x" "y" "y"
           (NumberNode 2) eq_refl).
Defined.

(** ** What [Simplify] folds *)

(** X21: of two numbers that are neither [0] nor [1], [Simplify] folds
    the sum and the difference into one number, and leaves the product,
    the quotient and the power as they are. *)
Theorem Simplify_folds_sums_only (cfg : Configuration) (l r : float) :
  not_0_or_1 l = true -> not_0_or_1 r = true ->
  let S op := Simplify cfg (OperatorNode op (NumberNode l) (NumberNode r)) in
  S "+" = NumberNode (l + r)
  /\ S "-" = NumberNode (l - r)
  /\ S "*" = OperatorNode "*" (NumberNode l) (NumberNode r)
  /\ S "/" = OperatorNode "/" (NumberNode l) (NumberNode r)
  /\ S "^" = OperatorNode "^" (NumberNode l) (NumberNode r).
Proof.
  unfold not_0_or_1.
  intros [Hl0 Hl1]%andb_true_iff [Hr0 Hr1]%andb_true_iff.
  apply negb_true_iff in Hl0, Hl1, Hr0, Hr1.
  cbn [Simplify is_ErrorNode].
  unfold OperatorNode_Simplify_rules, or_else, or_try.
  cbn [as_NumberNode String.eqb Ascii.eqb Bool.eqb].
  rewrite Hl0, Hl1, Hr0, Hr1. cbn [negb].
  repeat split; reflexivity.
Qed.

Lemma Simplify_folds_sums_only_witness :
  Simplify Configuration_std
    (OperatorNode "+" (NumberNode 2) (NumberNode 3)) = NumberNode (2 + 3)
  /\ Simplify Configuration_std
       (OperatorNode "*" (NumberNode 2) (NumberNode 3))
     = OperatorNode "*" (NumberNode 2) (NumberNode 3).
Proof.
  destruct (Simplify_folds_sums_only Configuration_std 2 3
              eq_refl eq_refl) as (H1 & _ & H3 & _).
  split; [exact H1 | exact H3].
Defined.

(** X22: one pass of [Simplify] does not reach a fixed point: a number
    [k] that is neither [0] nor [1] is distributed over [x + 1], and the
    product [k * 1] this creates is only removed by a second pass. *)
Theorem Simplify_not_idempotent (cfg : Configuration) (k : float)
    (x : string) :
  not_0_or_1 k = true ->
  let T := OperatorNode "*" (NumberNode k)
             (OperatorNode "+" (VariableNode x) (NumberNode 1)) in
  let kx := OperatorNode "*" (NumberNode k) (VariableNode x) in
  Simplify cfg T
  = OperatorNode "+" kx (OperatorNode "*" (NumberNode k) (NumberNode 1))
  /\ Simplify cfg (Simplify cfg T) = OperatorNode "+" kx (NumberNode k).
Proof.
  unfold not_0_or_1. intros [Hk0 Hk1]%andb_true_iff.
  apply negb_true_iff in Hk0, Hk1.
  assert (H : Simplify cfg
                (OperatorNode "*" (NumberNode k)
                   (OperatorNode "+" (VariableNode x) (NumberNode 1)))
              = OperatorNode "+"
                  (OperatorNode "*" (NumberNode k) (VariableNode x))
                  (OperatorNode "*" (NumberNode k) (NumberNode 1))).
  { cbn [Simplify is_ErrorNode].
    unfold OperatorNode_Simplify_rules, or_else, or_try.
    cbn [as_NumberNode String.eqb Ascii.eqb Bool.eqb is_ErrorNode].
    change (1 =? 0)%float with false.
    cbn [as_NumberNode String.eqb Ascii.eqb Bool.eqb is_ErrorNode].
    rewrite Hk0, Hk1. reflexivity. }
  cbv zeta. rewrite H. split; [reflexivity |].
  cbn [Simplify is_ErrorNode].
  unfold OperatorNode_Simplify_rules, or_else, or_try.
  cbn [as_NumberNode String.eqb Ascii.eqb Bool.eqb is_ErrorNode].
  rewrite Hk0, Hk1.
  change (1 =? 1)%float with true.
  cbn [as_NumberNode String.eqb Ascii.eqb Bool.eqb is_ErrorNode].
  rewrite Hk0. reflexivity.
Qed.

Lemma Simplify_not_idempotent_witness :
  Simplify Configuration_std
    (Simplify Configuration_std
       (OperatorNode "*" (NumberNode 2)
          (OperatorNode "+" (VariableNode "x") (NumberNode 1))))
  <> Simplify Configuration_std
       (OperatorNode "*" (NumberNode 2)
          (OperatorNode "+" (VariableNode "x") (NumberNode 1))).
Proof.
  destruct (Simplify_not_idempotent Configuration_std 2 "x" eq_refl)
    as [-> ->].
  discriminate.
Defined.
